(** * ipyparallel launchers: a shallow embedding of [apps/launcher.py]
      and of the pid-file checks of [apps/ipclusterapp.py].

    The launchers are Python objects mutated in place by an event loop.
    They are modelled by explicit state passing: every method is a
    computation over a world that holds the objects it can reach, and an
    exception carries the world as it was when it was raised, so that what
    a failed call leaves behind can be stated.  Answers of the operating
    system (spawning a process, the output of a command, the content of a
    file) are arguments of the operations that ask for them.  Logging is
    not modelled. *)

From Stdlib Require Import String Ascii List ZArith QArith Bool Arith Lia.
From Stdlib Require Import DecimalString.
Import ListNotations.
Close Scope Q_scope.
Open Scope string_scope.
Open Scope list_scope.

Set Implicit Arguments.
Set Warnings "-register-all".

(** ** Python values and exceptions *)

Inductive Exception :=
| ProcessStateError (msg : string)
| LauncherError (msg : string)
| AttributeError (msg : string)
| ValueError (msg : string)
| IndexError (msg : string)
| KeyError (msg : string)
| TypeError (msg : string)
| NameError (msg : string)
| OSError (msg : string).

(** The payloads handed to [notify_start] and [notify_stop] (traits of type
    [Any]): a pid, a job id, [dict(exit_code=..., pid=...)],
    [dict(job_id=..., output=...)], a list of start results, and the
    per-engine dictionary of an engine set. *)
Inductive Data :=
| DNone
| DInt (z : Z)
| DStr (s : string)
| DExit (exit_code pid : Z)
| DJob (job_id output : string)
| DList (l : list Data)
| DDict (kv : list (nat * Data)).

(** ** Computations: state passing with exceptions *)

Inductive outcome (W A : Type) :=
| Return (a : A) (w : W)
| Raised (e : Exception) (w : W).
Arguments Return {W A} a w.
Arguments Raised {W A} e w.

Definition M (W A : Type) := W -> outcome W A.

Definition ret {W A} (a : A) : M W A := fun w => Return a w.
Definition raise {W A} (e : Exception) : M W A := fun w => Raised e w.
Definition bind {W A B} (m : M W A) (k : A -> M W B) : M W B :=
  fun w => match m w with
           | Return a w' => k a w'
           | Raised e w' => Raised e w'
           end.
Definition gets {W A} (f : W -> A) : M W A := fun w => Return (f w) w.
Definition modify {W} (f : W -> W) : M W unit := fun w => Return tt (f w).
(** [try: m except: h] with a bare or [Exception] handler. *)
Definition try_except {W A} (m : M W A) (h : Exception -> M W A) : M W A :=
  fun w => match m w with
           | Return a w' => Return a w'
           | Raised e w' => h e w'
           end.

Notation "x <- c ;; k" := (bind c (fun x => k))
  (at level 61, c at next level, right associativity).
Notation "c ;;; k" := (bind c (fun _ => k))
  (at level 61, right associativity).

Definition world_of {W A} (o : outcome W A) : W :=
  match o with Return _ w => w | Raised _ w => w end.

Definition returned {W A} (o : outcome W A) : bool :=
  match o with Return _ _ => true | Raised _ _ => false end.

(** ** BaseLauncher *)

Inductive State := before | running | after.

Definition State_eqb (a b : State) : bool :=
  match a, b with
  | before, before | running, running | after, after => true
  | _, _ => false
  end.

(** [repr] of the state string, as ['%r' % self.state] prints it. *)
Definition repr_State (s : State) : string :=
  match s with
  | before => "'before'"
  | running => "'running'"
  | after => "'after'"
  end.

(** The fields [BaseLauncher.__init__] and its traits give every launcher.
    [C] is the type of the callables registered with [on_stop]. *)
Record BaseLauncher (C : Type) := mkBaseLauncher {
  state : State;
  start_data : Data;
  stop_data : Data;
  stop_callbacks : list C
}.
Arguments mkBaseLauncher {C}.

Definition set_state {C} (s : State) (l : BaseLauncher C) :=
  mkBaseLauncher s (start_data l) (stop_data l) (stop_callbacks l).
Definition set_start_data {C} (d : Data) (l : BaseLauncher C) :=
  mkBaseLauncher (state l) d (stop_data l) (stop_callbacks l).
Definition set_stop_data {C} (d : Data) (l : BaseLauncher C) :=
  mkBaseLauncher (state l) (start_data l) d (stop_callbacks l).
Definition set_stop_callbacks {C} (cs : list C) (l : BaseLauncher C) :=
  mkBaseLauncher (state l) (start_data l) (stop_data l) cs.

(** [BaseLauncher.__init__]: state ['before'], no callbacks; [stop_data0]
    is the default of the [stop_data] trait ([None] for [Any()], the empty
    dictionary for the [Dict()] of an engine set). *)
Definition BaseLauncher_init {C} (stop_data0 : Data) : BaseLauncher C :=
  mkBaseLauncher before DNone stop_data0 [].

(** [list.pop()]: the last element and the list without it. *)
Fixpoint list_pop {A} (l : list A) : option (A * list A) :=
  match l with
  | [] => None
  | [x] => Some (x, [])
  | x :: tl => match list_pop tl with
               | Some (y, tl') => Some (y, x :: tl')
               | None => None
               end
  end.

(** The methods of [BaseLauncher], over any world [W] in which the launcher
    object [self] can be read and written and its callbacks can be called.
    A callback runs on the whole world: it may reach [self] again. *)
Section BaseLauncherMethods.
Context {C W : Type}.
Variable self : W -> BaseLauncher C.
Variable set_self : BaseLauncher C -> W -> W.
Variable call : C -> Data -> M W Data.

Definition update_self (f : BaseLauncher C -> BaseLauncher C) : M W unit :=
  modify (fun w => set_self (f (self w)) w).

(** [running] property. *)
Definition is_running (w : W) : bool := State_eqb (state (self w)) running.

Definition on_stop (f : C) : M W Data :=
  s <- gets (fun w => state (self w)) ;;
  if State_eqb s after then
    d <- gets (fun w => stop_data (self w)) ;;
    call f d
  else
    update_self (fun l => set_stop_callbacks (stop_callbacks l ++ [f]) l) ;;;
    ret DNone.

Definition notify_start (data : Data) : M W Data :=
  update_self (set_start_data data) ;;;
  update_self (set_state running) ;;;
  ret data.

(** [d = self.stop_callbacks.pop()] *)
Definition pop_callback : M W C :=
  cs <- gets (fun w => stop_callbacks (self w)) ;;
  match list_pop cs with
  | Some (d, cs') => update_self (set_stop_callbacks cs') ;;; ret d
  | None => raise (IndexError "pop from empty list")
  end.

(** [for i in range(n): d = self.stop_callbacks.pop(); d(data)] *)
Fixpoint drain_callbacks (n : nat) (data : Data) : M W unit :=
  match n with
  | O => ret tt
  | S n' =>
      d <- pop_callback ;;
      call d data ;;;
      drain_callbacks n' data
  end.

Definition notify_stop (data : Data) : M W Data :=
  update_self (set_stop_data data) ;;;
  update_self (set_state after) ;;;
  n <- gets (fun w => length (stop_callbacks (self w))) ;;
  drain_callbacks n data ;;;
  ret data.
End BaseLauncherMethods.

(** ** Local process launchers and the engine set *)

Inductive Signal := SIGINT | SIGTERM | SIGKILL.

Definition Signal_eqb (a b : Signal) : bool :=
  match a, b with
  | SIGINT, SIGINT | SIGTERM, SIGTERM | SIGKILL, SIGKILL => true
  | _, _ => false
  end.

(** What can be registered with [on_stop] on a process launcher: a callable
    of the application, known by its name, or the bound method
    [self._notice_engine_stopped] of the engine set that owns the launcher. *)
Inductive Callback :=
| Observer (name : string)
| bound_notice_engine_stopped.

(** A [LocalProcessLauncher] object ([LocalEngineLauncher] and
    [LocalControllerLauncher] add no state): [process] is the pid of the
    [Popen] handle, [poller] says whether the periodic poll runs, [killer]
    is the handle of the pending kill timeout. *)
Record LocalProcessLauncher := mkLocalProcessLauncher {
  base : BaseLauncher Callback;
  process : option Z;
  poller : bool;
  killer : option nat
}.

(** A [LocalEngineSetLauncher] object: its callbacks are callables of the
    application; [launchers] maps the engine index to the child launcher
    (a reference into the object store), in insertion order as a Python
    [dict] iterates; [delay] is the pause between two engine starts. *)
Record LocalEngineSetLauncher := mkLocalEngineSetLauncher {
  es_base : BaseLauncher string;
  launchers : list (nat * nat);
  delay : Q
}.

(** What the event loop is asked to run later: [lambda: self.signal(sig)]
    for the process launcher at reference [target]. *)
Record Timeout := mkTimeout {
  deadline : Q;
  target : nat;
  timeout_signal : Signal
}.

(** What reached the operating system. *)
Inductive OsEvent :=
| SendSignal (pid : Z) (sig : Signal)
| TaskKill (pid : Z).

(** The world of the local launchers: the store of process launcher objects
    (a reference is a position in [procs]), the engine set, the clock and
    the pending timeouts of the event loop, the platform flag, the pids for
    which signalling raises, what was sent to the operating system, and the
    calls the application's callables received, oldest first. *)
Record World := mkWorld {
  procs : list LocalProcessLauncher;
  eset : LocalEngineSetLauncher;
  loop_time : Q;
  timeouts : list Timeout;
  WINDOWS : bool;
  signal_raises : Z -> bool;
  os_events : list OsEvent;
  observed : list (string * Data)
}.

Definition set_procs ps (w : World) :=
  mkWorld ps (eset w) (loop_time w) (timeouts w) (WINDOWS w)
          (signal_raises w) (os_events w) (observed w).
Definition set_eset es (w : World) :=
  mkWorld (procs w) es (loop_time w) (timeouts w) (WINDOWS w)
          (signal_raises w) (os_events w) (observed w).
Definition set_loop_time t (w : World) :=
  mkWorld (procs w) (eset w) t (timeouts w) (WINDOWS w)
          (signal_raises w) (os_events w) (observed w).
Definition set_timeouts ts (w : World) :=
  mkWorld (procs w) (eset w) (loop_time w) ts (WINDOWS w)
          (signal_raises w) (os_events w) (observed w).
Definition set_os_events evs (w : World) :=
  mkWorld (procs w) (eset w) (loop_time w) (timeouts w) (WINDOWS w)
          (signal_raises w) evs (observed w).
Definition set_observed tr (w : World) :=
  mkWorld (procs w) (eset w) (loop_time w) (timeouts w) (WINDOWS w)
          (signal_raises w) (os_events w) tr.

(** [LocalProcessLauncher.__init__] *)
Definition LocalProcessLauncher_init : LocalProcessLauncher :=
  mkLocalProcessLauncher (BaseLauncher_init DNone) None false None.

Fixpoint list_set {A} (n : nat) (x : A) (l : list A) : list A :=
  match l, n with
  | [], _ => []
  | _ :: tl, O => x :: tl
  | y :: tl, S n' => y :: list_set n' x tl
  end.

(** Reading and writing the object at reference [r]. *)
Definition proc (r : nat) (w : World) : LocalProcessLauncher :=
  nth r (procs w) LocalProcessLauncher_init.
Definition set_proc (r : nat) (p : LocalProcessLauncher) (w : World) : World :=
  set_procs (list_set r p (procs w)) w.
Definition proc_base (r : nat) (w : World) : BaseLauncher Callback :=
  base (proc r w).
Definition set_proc_base (r : nat) (b : BaseLauncher Callback) (w : World) :=
  set_proc r (mkLocalProcessLauncher b (process (proc r w)) (poller (proc r w))
                                     (killer (proc r w))) w.
Definition eset_base (w : World) : BaseLauncher string := es_base (eset w).
Definition set_eset_base (b : BaseLauncher string) (w : World) : World :=
  set_eset (mkLocalEngineSetLauncher b (launchers (eset w)) (delay (eset w))) w.
Definition set_launchers (ls : list (nat * nat)) (w : World) : World :=
  set_eset (mkLocalEngineSetLauncher (es_base (eset w)) ls (delay (eset w))) w.

(** A callable of the application is opaque: calling it is recorded and
    returns [None]. *)
Definition call_observer (name : string) (data : Data) : M World Data :=
  modify (fun w => set_observed (observed w ++ [(name, data)]) w) ;;;
  ret DNone.

(** The [BaseLauncher] methods of the engine set. *)
Definition eset_on_stop := on_stop eset_base set_eset_base call_observer.
Definition eset_notify_start := notify_start eset_base set_eset_base.
Definition eset_notify_stop := notify_stop eset_base set_eset_base call_observer.

(** *** Dictionaries keyed by the engine index, in insertion order *)

Fixpoint dict_set {V} (k : nat) (v : V) (d : list (nat * V)) : list (nat * V) :=
  match d with
  | [] => [(k, v)]
  | (k', v') :: tl =>
      if Nat.eqb k' k then (k, v) :: tl else (k', v') :: dict_set k v tl
  end.

Fixpoint dict_remove {V} (k : nat) (d : list (nat * V)) : list (nat * V) :=
  match d with
  | [] => []
  | (k', v') :: tl => if Nat.eqb k' k then tl else (k', v') :: dict_remove k tl
  end.

Fixpoint dict_mem {V} (k : nat) (d : list (nat * V)) : bool :=
  match d with
  | [] => false
  | (k', _) :: tl => Nat.eqb k' k || dict_mem k tl
  end.

(** *** LocalEngineSetLauncher._notice_engine_stopped *)

(** [data['pid']] *)
Definition data_pid (data : Data) : M World Z :=
  match data with
  | DExit _ pid => ret pid
  | DJob _ _ | DDict _ => raise (KeyError "'pid'")
  | _ => raise (TypeError "object is not subscriptable")
  end.

(** [for idx, el in iteritems(self.launchers): if el.process.pid == pid: break]
    and the binding of [idx] once the loop is left: that of the engine found,
    else that of the last engine, else none. *)
Fixpoint find_engine (pid : Z) (ls : list (nat * nat)) (idx : option nat)
  : M World (option nat) :=
  match ls with
  | [] => ret idx
  | (i, el) :: tl =>
      p <- gets (fun w => process (proc el w)) ;;
      match p with
      | None => raise (AttributeError "'NoneType' object has no attribute 'pid'")
      | Some pid' =>
          if Z.eqb pid' pid then ret (Some i) else find_engine pid tl (Some i)
      end
  end.

(** [self.stop_data[idx] = data] *)
Definition stop_data_setitem (idx : nat) (data : Data) : M World unit :=
  sd <- gets (fun w => stop_data (eset_base w)) ;;
  match sd with
  | DDict kv =>
      update_self eset_base set_eset_base (set_stop_data (DDict (dict_set idx data kv)))
  | _ => raise (TypeError "object does not support item assignment")
  end.

(** [self.launchers.pop(idx)] *)
Definition launchers_pop (idx : nat) : M World unit :=
  ls <- gets (fun w => launchers (eset w)) ;;
  if dict_mem idx ls then modify (set_launchers (dict_remove idx ls))
  else raise (KeyError "idx").

Definition _notice_engine_stopped (data : Data) : M World Data :=
  pid <- data_pid data ;;
  ls <- gets (fun w => launchers (eset w)) ;;
  idx <- find_engine pid ls None ;;
  match ls with
  | _ :: _ =>
      match idx with
      | Some i =>
          launchers_pop i ;;;
          stop_data_setitem i data ;;;
          ret DNone
      | None => raise (NameError "idx")
      end
  | [] =>
      sd <- gets (fun w => stop_data (eset_base w)) ;;
      eset_notify_stop sd ;;;
      ret DNone
  end.

(** *** LocalProcessLauncher *)

Definition call_callback (f : Callback) (data : Data) : M World Data :=
  match f with
  | Observer name => call_observer name data
  | bound_notice_engine_stopped => _notice_engine_stopped data
  end.

(** The [BaseLauncher] methods of the process launcher at reference [r]. *)
Definition proc_on_stop (r : nat) :=
  on_stop (proc_base r) (set_proc_base r) call_callback.
Definition proc_notify_start (r : nat) :=
  notify_start (proc_base r) (set_proc_base r).
Definition proc_notify_stop (r : nat) :=
  notify_stop (proc_base r) (set_proc_base r) call_callback.

Definition update_proc (r : nat) (f : LocalProcessLauncher -> LocalProcessLauncher)
  : M World unit :=
  modify (fun w => set_proc r (f (proc r w)) w).

(** [start]: [popen] is what [Popen(self.args, ...)] answers, the pid of the
    new process or [None] when it raises.  Registering the output handlers
    and starting the poller is the [poller] flag. *)
Definition start (r : nat) (popen : option Z) : M World Data :=
  s <- gets (fun w => state (proc_base r w)) ;;
  if State_eqb s before then
    match popen with
    | None => raise (OSError "Popen")
    | Some pid =>
        update_proc r (fun p => mkLocalProcessLauncher (base p) (Some pid) true (killer p)) ;;;
        proc_notify_start r (DInt pid) ;;;
        ret DNone
    end
  else
    raise (ProcessStateError
             ("The process was already started and has state: " ++ repr_State s)).

Definition os_emit (e : OsEvent) : M World unit :=
  modify (fun w => set_os_events (os_events w ++ [e]) w).

(** [signal]: on Windows every signal but the interrupt is a tree kill. *)
Definition signal (r : nat) (sig : Signal) : M World Data :=
  s <- gets (fun w => state (proc_base r w)) ;;
  if State_eqb s running then
    p <- gets (fun w => process (proc r w)) ;;
    match p with
    | None => raise (AttributeError "'NoneType' object has no attribute 'pid'")
    | Some pid =>
        fails <- gets (fun w => signal_raises w pid) ;;
        if fails then raise (OSError "signal")
        else
          win <- gets WINDOWS ;;
          (if win && negb (Signal_eqb sig SIGINT)
           then os_emit (TaskKill pid)
           else os_emit (SendSignal pid sig)) ;;;
          ret DNone
    end
  else ret DNone.

(** [self.loop.add_timeout(deadline, lambda: self.signal(sig))]; the handle
    is the position of the timeout. *)
Definition add_timeout (t : Timeout) : M World nat :=
  h <- gets (fun w => length (timeouts w)) ;;
  modify (fun w => set_timeouts (timeouts w ++ [t]) w) ;;;
  ret h.

Definition interrupt_then_kill (r : nat) (delay : Q) : M World Data :=
  try_except (signal r SIGINT) (fun _ => ret DNone) ;;;
  now <- gets loop_time ;;
  h <- add_timeout (mkTimeout (now + delay) r SIGKILL) ;;
  update_proc r (fun p => mkLocalProcessLauncher (base p) (process p) (poller p) (Some h)) ;;;
  ret DNone.

(** The default of [delay] in [LocalProcessLauncher.interrupt_then_kill]. *)
Definition default_delay : Q := 2 # 1.

Definition stop (r : nat) : M World Data := interrupt_then_kill r default_delay.

(** [poll]: [status] is what [self.process.poll()] answers. *)
Definition poll (r : nat) (status : option Z) : M World (option Z) :=
  p <- gets (fun w => process (proc r w)) ;;
  match p with
  | None => raise (AttributeError "'NoneType' object has no attribute 'poll'")
  | Some pid =>
      match status with
      | Some st =>
          update_proc r (fun p => mkLocalProcessLauncher (base p) (process p) false (killer p)) ;;;
          proc_notify_stop r (DExit st pid) ;;;
          ret status
      | None => ret status
      end
  end.


(** *** LocalEngineSetLauncher *)

(** [LocalEngineSetLauncher.__init__]: [launchers] and [stop_data] are empty
    dictionaries, [delay] is 0.1 s unless configured. *)
Definition LocalEngineSetLauncher_init : LocalEngineSetLauncher :=
  mkLocalEngineSetLauncher (BaseLauncher_init (DDict [])) [] (1 # 10).

(** [el = self.launcher_class(...)]: a new object in the store. *)
Definition new_launcher : M World nat :=
  el <- gets (fun w => length (procs w)) ;;
  modify (fun w => set_procs (procs w ++ [LocalProcessLauncher_init]) w) ;;;
  ret el.

(** [time.sleep(self.delay)] *)
Definition sleep_delay : M World unit :=
  modify (fun w => set_loop_time (loop_time w + delay (eset w)) w).

(** The body of [for i in range(n)] in [start], over the indices still to
    come; [popen i] is the answer to the [Popen] of engine [i]. *)
Fixpoint start_each (popen : nat -> option Z) (todo : list nat) (dlist : list Data)
  : M World (list Data) :=
  match todo with
  | [] => ret dlist
  | i :: tl =>
      (if Nat.ltb 0 i then sleep_delay else ret tt) ;;;
      el <- new_launcher ;;
      proc_on_stop el bound_notice_engine_stopped ;;;
      d <- start el (popen i) ;;
      modify (fun w => set_launchers (dict_set i el (launchers (eset w))) w) ;;;
      start_each popen tl (dlist ++ [d])
  end.

Definition eset_start (n : nat) (popen : nat -> option Z) : M World Data :=
  dlist <- start_each popen (seq 0 n) [] ;;
  eset_notify_start (DList dlist) ;;;
  ret (DList dlist).

(** [for el in itervalues(self.launchers): d = f(el); dlist.append(d)] *)
Fixpoint for_launchers (f : nat -> M World Data) (ls : list (nat * nat))
  : M World (list Data) :=
  match ls with
  | [] => ret []
  | (_, el) :: tl =>
      d <- f el ;;
      ds <- for_launchers f tl ;;
      ret (d :: ds)
  end.

Definition eset_signal (sig : Signal) : M World Data :=
  ls <- gets (fun w => launchers (eset w)) ;;
  dlist <- for_launchers (fun el => signal el sig) ls ;;
  ret (DList dlist).




(** A world with no launcher object yet, on a POSIX platform where
    signalling never raises, at clock [0]. *)
Definition empty_world : World :=
  mkWorld [] LocalEngineSetLauncher_init 0 [] false (fun _ => false) [] [].

(** The world after running [m] from [w]. *)
Definition exec {W A} (m : M W A) (w : W) : W := world_of (m w).

(** ** Strings and regular expressions of the batch launchers *)

(** Python distinguishes [bytes] (what a subprocess pipe yields) from [str];
    only [bytes] has [decode]. *)
Inductive PyString :=
| PyBytes (b : string)
| PyStr (s : string).

(** [output.decode(DEFAULT_ENCODING, 'replace')] *)
Definition decode {W} (o : PyString) : M W string :=
  match o with
  | PyBytes b => ret b
  | PyStr _ => raise (AttributeError "'str' object has no attribute 'decode'")
  end.

Definition newline : ascii := ascii_of_nat 10.
Definition nl : string := String newline EmptyString.
Definition dquote : string := String (ascii_of_nat 34) EmptyString.

(** [s.split('\n', 1)] when it has two parts: the text before the first
    newline and the text after it; [None] when [s] has no newline (the
    split then has one part only). *)
Fixpoint split_first_line (s : string) : option (string * string) :=
  match s with
  | EmptyString => None
  | String c tl =>
      if Ascii.eqb c newline then Some (EmptyString, tl)
      else match split_first_line tl with
           | Some (first, rest) => Some (String c first, rest)
           | None => None
           end
  end.

(** [u'\n'.join([a, b, c])] *)
Definition join3 (a b c : string) : string := a ++ nl ++ b ++ nl ++ c.

(** The part of Python's regular expressions the launchers' patterns use.
    [Chr p] is one character of the class [p], [Star] is greedy, [Group k]
    is the capturing group number [k], [Eol] is [$]. *)
Inductive regex :=
| Eps
| Chr (p : ascii -> bool)
| Seq (r1 r2 : regex)
| Alt (r1 r2 : regex)
| Star (r : regex)
| Group (k : nat) (r : regex)
| Eol.

Definition Plus (r : regex) : regex := Seq r (Star r).
Definition Opt (r : regex) : regex := Alt r Eps.
Fixpoint Lit (s : string) : regex :=
  match s with
  | EmptyString => Eps
  | String c tl => Seq (Chr (Ascii.eqb c)) (Lit tl)
  end.

Definition between (lo hi c : ascii) : bool :=
  (nat_of_ascii lo <=? nat_of_ascii c)%nat && (nat_of_ascii c <=? nat_of_ascii hi)%nat.
(** [\d], [\w] and [\W] on ASCII text. *)
Definition is_digit (c : ascii) : bool := between "0" "9" c.
Definition is_word (c : ascii) : bool :=
  between "a" "z" c || between "A" "Z" c || is_digit c || Ascii.eqb c "_".
Definition is_nonword (c : ascii) : bool := negb (is_word c).

(** The text of [s] that was consumed when [rest] is what remains. *)
Definition consumed (s rest : string) : string :=
  substring 0 (String.length s - String.length rest) s.

(** Backtracking match of [r] at the start of [s], in the order Python tries
    the alternatives: [k] is what remains to be matched after [r]. *)
Fixpoint rmatch {R} (r : regex) (s : string) (caps : list (nat * string))
         (k : string -> list (nat * string) -> option R) : option R :=
  match r with
  | Eps => k s caps
  | Chr p =>
      match s with
      | String c tl => if p c then k tl caps else None
      | EmptyString => None
      end
  | Seq r1 r2 => rmatch r1 s caps (fun s' caps' => rmatch r2 s' caps' k)
  | Alt r1 r2 =>
      match rmatch r1 s caps k with
      | Some x => Some x
      | None => rmatch r2 s caps k
      end
  | Star r1 =>
      (fix iterate (fuel : nat) (s : string) (caps : list (nat * string)) :=
         match fuel with
         | O => k s caps
         | S fuel' =>
             match rmatch r1 s caps
                     (fun s' caps' =>
                        if (String.length s' <? String.length s)%nat
                        then iterate fuel' s' caps' else None) with
             | Some x => Some x
             | None => k s caps
             end
         end) (String.length s) s caps
  | Group g r1 =>
      rmatch r1 s caps (fun s' caps' => k s' (dict_set g (consumed s s') caps'))
  | Eol =>
      if String.eqb s EmptyString || String.eqb s nl then k s caps else None
  end.

(** A match object: the whole match and the captured groups. *)
Record Match := mkMatch {
  group0 : string;
  groups : list (nat * string)
}.

Definition match_at (r : regex) (s : string) : option Match :=
  rmatch r s [] (fun s' caps => Some (mkMatch (consumed s s') caps)).

(** [regexp.search(s)]: the first position at which [r] matches. *)
Fixpoint search (r : regex) (s : string) : option Match :=
  match match_at r s with
  | Some m => Some m
  | None =>
      match s with
      | EmptyString => None
      | String _ tl => search r tl
      end
  end.

(** [m is not None] *)
Definition found (m : option Match) : bool :=
  match m with Some _ => true | None => false end.

Fixpoint dict_get {V} (k : nat) (d : list (nat * V)) : option V :=
  match d with
  | [] => None
  | (k', v) :: tl => if Nat.eqb k' k then Some v else dict_get k tl
  end.

(** [m.group(g)] *)
Definition group {W} (m : Match) (g : nat) : M W string :=
  match g with
  | O => ret (group0 m)
  | _ => match dict_get g (groups m) with
         | Some s => ret s
         | None => raise (IndexError "no such group")
         end
  end.

(** The patterns of the PBS, SGE, Slurm, LSF and HTCondor launchers. *)

(** [r'\d+'] *)
Definition digits_regexp : regex := Plus (Chr is_digit).
(** [r'#PBS\W+-q\W+\$?\w+'] *)
Definition PBS_queue_regexp : regex :=
  Seq (Lit "#PBS") (Seq (Plus (Chr is_nonword)) (Seq (Lit "-q")
    (Seq (Plus (Chr is_nonword)) (Seq (Opt (Lit "$")) (Plus (Chr is_word)))))).
(** [r'#PBS\W+-t\W+[\w\d\-\$]+'] *)
Definition PBS_job_array_regexp : regex :=
  Seq (Lit "#PBS") (Seq (Plus (Chr is_nonword)) (Seq (Lit "-t")
    (Seq (Plus (Chr is_nonword))
         (Plus (Chr (fun c => is_word c || Ascii.eqb c "-" || Ascii.eqb c "$")))))).
(** [r'#\$\W+-q\W+\$?\w+'] *)
Definition SGE_queue_regexp : regex :=
  Seq (Lit "#$") (Seq (Plus (Chr is_nonword)) (Seq (Lit "-q")
    (Seq (Plus (Chr is_nonword)) (Seq (Opt (Lit "$")) (Plus (Chr is_word)))))).
(** [r'#\$\W+\-t'] *)
Definition SGE_job_array_regexp : regex :=
  Seq (Lit "#$") (Seq (Plus (Chr is_nonword)) (Lit "-t")).
(** [r'(\d+)\.$'] *)
Definition HTCondor_job_id_regexp : regex :=
  Seq (Group 1 (Plus (Chr is_digit))) (Seq (Lit ".") Eol).

(** ** Batch system launchers *)

Module Batch.

(** Which class family the launcher belongs to, for the methods the
    subclasses override: the base class with PBS, SGE and LSF (which inherit
    both insertion methods), Slurm, and HTCondor. *)
Inductive Kind := Plain | Slurm | HTCondor.

(** A [BatchSystemLauncher] object.  [job_id] is the attribute
    [parse_job_id] creates; [formatter] renders a template with the
    namespace, [None] when it raises; [account], [qos] and [timelimit] are
    the options of the Slurm launchers. *)
Record BatchSystemLauncher := mkBatchSystemLauncher {
  kind : Kind;
  base : BaseLauncher string;
  submit_command : list string;
  delete_command : list string;
  job_id_regexp : regex;
  job_id_regexp_group : nat;
  batch_template : string;
  batch_template_file : string;
  queue : string;
  n : nat;
  job_array_regexp : regex;
  job_array_template : string;
  queue_regexp : regex;
  queue_template : string;
  default_template : string;
  batch_file : string;
  context : list (string * string);
  namespace : list (string * string);
  formatter : string -> list (string * string) -> option string;
  job_id : option string;
  account : string;
  qos : string;
  timelimit : string
}.

Definition set_base b (l : BatchSystemLauncher) :=
  mkBatchSystemLauncher (kind l) b (submit_command l) (delete_command l)
    (job_id_regexp l) (job_id_regexp_group l) (batch_template l)
    (batch_template_file l) (queue l) (n l) (job_array_regexp l)
    (job_array_template l) (queue_regexp l) (queue_template l)
    (default_template l) (batch_file l) (context l) (namespace l)
    (formatter l) (job_id l) (account l) (qos l) (timelimit l).
Definition set_batch_template t (l : BatchSystemLauncher) :=
  mkBatchSystemLauncher (kind l) (base l) (submit_command l) (delete_command l)
    (job_id_regexp l) (job_id_regexp_group l) t
    (batch_template_file l) (queue l) (n l) (job_array_regexp l)
    (job_array_template l) (queue_regexp l) (queue_template l)
    (default_template l) (batch_file l) (context l) (namespace l)
    (formatter l) (job_id l) (account l) (qos l) (timelimit l).
Definition set_n_context n' c (l : BatchSystemLauncher) :=
  mkBatchSystemLauncher (kind l) (base l) (submit_command l) (delete_command l)
    (job_id_regexp l) (job_id_regexp_group l) (batch_template l)
    (batch_template_file l) (queue l) n' (job_array_regexp l)
    (job_array_template l) (queue_regexp l) (queue_template l)
    (default_template l) (batch_file l) c (namespace l)
    (formatter l) (job_id l) (account l) (qos l) (timelimit l).
Definition set_job_id j (l : BatchSystemLauncher) :=
  mkBatchSystemLauncher (kind l) (base l) (submit_command l) (delete_command l)
    (job_id_regexp l) (job_id_regexp_group l) (batch_template l)
    (batch_template_file l) (queue l) (n l) (job_array_regexp l)
    (job_array_template l) (queue_regexp l) (queue_template l)
    (default_template l) (batch_file l) (context l) (namespace l)
    (formatter l) j (account l) (qos l) (timelimit l).

(** The world of a batch launcher: the launcher object, the files written,
    the commands run, and the calls its stop observers received. *)
Record World := mkWorld {
  launcher : BatchSystemLauncher;
  files : list (string * string);
  commands : list (list string);
  observed : list (string * Data)
}.

Definition set_launcher l (w : World) :=
  mkWorld l (files w) (commands w) (observed w).
Definition update_launcher (f : BatchSystemLauncher -> BatchSystemLauncher)
  : M World unit :=
  modify (fun w => set_launcher (f (launcher w)) w).

Definition self_base (w : World) : BaseLauncher string := base (launcher w).
Definition set_self_base (b : BaseLauncher string) (w : World) : World :=
  set_launcher (set_base b (launcher w)) w.
Definition call_observer (name : string) (data : Data) : M World Data :=
  modify (fun w => mkWorld (launcher w) (files w) (commands w)
                           (observed w ++ [(name, data)])) ;;;
  ret DNone.

Definition on_stop := on_stop self_base set_self_base call_observer.
Definition notify_start := notify_start self_base set_self_base.
Definition notify_stop := notify_stop self_base set_self_base call_observer.

(** Truth value of a string. *)
Definition truthy (s : string) : bool := negb (String.eqb s EmptyString).

(** Dictionaries keyed by strings. *)
Fixpoint str_set (k v : string) (d : list (string * string)) : list (string * string) :=
  match d with
  | [] => [(k, v)]
  | (k', v') :: tl =>
      if String.eqb k' k then (k, v) :: tl else (k', v') :: str_set k v tl
  end.
Fixpoint str_get (k : string) (d : list (string * string)) : option string :=
  match d with
  | [] => None
  | (k', v) :: tl => if String.eqb k' k then Some v else str_get k tl
  end.
(** [d.update(e)] *)
Definition str_update (d e : list (string * string)) : list (string * string) :=
  fold_left (fun acc kv => str_set (fst kv) (snd kv) acc) e d.

(** [str(n)] *)
Definition str_of_nat (k : nat) : string :=
  DecimalString.NilEmpty.string_of_uint (Nat.to_uint k).

(** [_context_default] *)
Definition context_default : list (string * string) :=
  [("n", "1"); ("queue", EmptyString); ("profile_dir", EmptyString);
   ("cluster_id", EmptyString)].

(** [parse_job_id] *)
Definition parse_job_id (output : string) : M World string :=
  re <- gets (fun w => job_id_regexp (launcher w)) ;;
  g <- gets (fun w => job_id_regexp_group (launcher w)) ;;
  match search re output with
  | Some m =>
      job_id <- group m g ;;
      update_launcher (set_job_id (Some job_id)) ;;;
      ret job_id
  | None => raise (LauncherError ("Job id couldn't be determined: " ++ output))
  end.

(** [firstline, rest = self.batch_template.split('\n', 1)] and
    [self.batch_template = u'\n'.join([firstline, line, rest])] *)
Definition insert_after_first_line (line : string) : M World unit :=
  t <- gets (fun w => batch_template (launcher w)) ;;
  match split_first_line t with
  | Some (firstline, rest) =>
      update_launcher (set_batch_template (join3 firstline line rest))
  | None => raise (ValueError "not enough values to unpack (expected 2, got 1)")
  end.

(** [if value and not regexp.search(self.batch_template): ...], the block
    every option of [_insert_options_in_script] repeats. *)
Definition insert_option (value : string) (re : regex) (line : string) : M World unit :=
  t <- gets (fun w => batch_template (launcher w)) ;;
  if truthy value && negb (found (search re t))
  then insert_after_first_line line
  else ret tt.

(** The Slurm patterns: [r'#SBATCH\W+(?:--partition|-p)\W+\$?\w+'],
    [r'#SBATCH\W+(?:--account|-A)\W+\$?\w+'], [r'#SBATCH\W+--qos\W+\$?\w+'],
    [r'#SBATCH\W+(?:--time|-t)\W+\$?\w+'], [r'#SBATCH\W+(?:--ntasks|-n)[\w\d\-\$]+']. *)
Definition sbatch_option (names : regex) : regex :=
  Seq (Lit "#SBATCH") (Seq (Plus (Chr is_nonword)) (Seq names
    (Seq (Plus (Chr is_nonword)) (Seq (Opt (Lit "$")) (Plus (Chr is_word)))))).
Definition Slurm_queue_regexp := sbatch_option (Alt (Lit "--partition") (Lit "-p")).
Definition Slurm_account_regexp := sbatch_option (Alt (Lit "--account") (Lit "-A")).
Definition Slurm_qos_regexp := sbatch_option (Lit "--qos").
Definition Slurm_timelimit_regexp := sbatch_option (Alt (Lit "--time") (Lit "-t")).
Definition Slurm_job_array_regexp : regex :=
  Seq (Lit "#SBATCH") (Seq (Plus (Chr is_nonword))
    (Seq (Alt (Lit "--ntasks") (Lit "-n"))
         (Plus (Chr (fun c => is_word c || Ascii.eqb c "-" || Ascii.eqb c "$"))))).

(** [_insert_options_in_script], with the overrides of [SlurmLauncher] and
    [HTCondorLauncher]. *)
Definition _insert_options_in_script : M World unit :=
  l <- gets launcher ;;
  match kind l with
  | Plain => insert_option (queue l) (queue_regexp l) (queue_template l)
  | Slurm =>
      insert_option (queue l) (queue_regexp l) (queue_template l) ;;;
      insert_option (account l) Slurm_account_regexp "#SBATCH --account={account}" ;;;
      insert_option (qos l) Slurm_qos_regexp "#SBATCH --qos={qos}" ;;;
      insert_option (timelimit l) Slurm_timelimit_regexp "#SBATCH --time={timelimit}"
  | HTCondor => ret tt
  end.

(** [_insert_job_array_in_script], with the override of [HTCondorLauncher],
    which puts the line at the bottom. *)
Definition _insert_job_array_in_script : M World unit :=
  l <- gets launcher ;;
  if found (search (job_array_regexp l) (batch_template l))
  then ret tt
  else
    match kind l with
    | HTCondor =>
        update_launcher
          (set_batch_template (batch_template l ++ nl ++ job_array_template l))
    | _ => insert_after_first_line (job_array_template l)
    end.

(** [self.n = n] with its observer [_n_changed], which runs when the value
    changes. *)
Definition assign_n (n' : nat) : M World unit :=
  update_launcher (fun l =>
    if Nat.eqb (n l) n' then l
    else set_n_context n' (str_set "n" (str_of_nat n') (context l)) l).

(** [write_batch_script]: [file_content] is what reading
    [batch_template_file] answers, [None] when it raises. *)
Definition write_batch_script (n' : nat) (file_content : option string) : M World unit :=
  assign_n n' ;;;
  l <- gets launcher ;;
  (if truthy (batch_template_file l) && negb (truthy (batch_template l)) then
     match file_content with
     | Some t => update_launcher (set_batch_template t)
     | None => raise (OSError "open")
     end
   else ret tt) ;;;
  l <- gets launcher ;;
  (if negb (truthy (batch_template l)) then
     update_launcher (set_batch_template (default_template l)) ;;;
     _insert_options_in_script ;;;
     _insert_job_array_in_script
   else ret tt) ;;;
  l <- gets launcher ;;
  let ns := str_update (str_update [] (context l)) (namespace l) in
  match formatter l (batch_template l) ns with
  | Some script_as_string =>
      modify (fun w => mkWorld (launcher w) (files w ++ [(batch_file l, script_as_string)])
                               (commands w) (observed w))
  | None => raise (NameError "format")
  end.

Definition run_command (args : list string) : M World unit :=
  modify (fun w => mkWorld (launcher w) (files w) (commands w ++ [args]) (observed w)).

(** [start]: [submit_output] is what [check_output(self.args)] answers, the
    bytes the submit command printed, or [None] when it raises. *)
Definition start (n' : nat) (file_content submit_output : option string) : M World Data :=
  write_batch_script n' file_content ;;;
  l <- gets launcher ;;
  run_command (submit_command l ++ [batch_file l]) ;;;
  match submit_output with
  | None => raise (OSError "check_output")
  | Some out =>
      output <- decode (PyBytes out) ;;
      job_id <- parse_job_id output ;;
      notify_start (DStr job_id) ;;;
      ret (DStr job_id)
  end.

(** [self.job_id], an attribute that exists once [parse_job_id] has run. *)
Definition get_job_id : M World string :=
  j <- gets (fun w => job_id (launcher w)) ;;
  match j with
  | Some job_id => ret job_id
  | None => raise (AttributeError "object has no attribute 'job_id'")
  end.

(** [stop]: [delete_output] is [(out, err)] of the delete command, or [None]
    when [Popen] raises. *)
Definition stop (delete_output : option (string * string)) : M World string :=
  output <- try_except
    (job_id <- get_job_id ;;
     l <- gets launcher ;;
     run_command (delete_command l ++ [job_id]) ;;;
     match delete_output with
     | Some (out, err) => ret (PyBytes (out ++ err))
     | None => raise (OSError "Popen")
     end)
    (fun _ =>
       get_job_id ;;;
       ret (PyStr EmptyString)) ;;
  output <- decode output ;;
  job_id <- get_job_id ;;
  notify_stop (DJob job_id output) ;;;
  ret output.

(** A renderer for templates whose fields are plain names, [{name}]: each
    field is replaced by its value in the namespace; [None] when a name is
    unknown or a field is left open. *)
Fixpoint format_fields (s : string) (field : option string)
         (ns : list (string * string)) : option string :=
  match s, field with
  | EmptyString, None => Some EmptyString
  | EmptyString, Some _ => None
  | String c tl, None =>
      if Ascii.eqb c "{" then format_fields tl (Some EmptyString) ns
      else option_map (String c) (format_fields tl None ns)
  | String c tl, Some f =>
      if Ascii.eqb c "}" then
        match str_get f ns with
        | Some v => option_map (append v) (format_fields tl None ns)
        | None => None
        end
      else format_fields tl (Some (f ++ String c EmptyString)%string) ns
  end.
Definition format_names (template : string) (ns : list (string * string)) :=
  format_fields template None ns.

(** [PBSEngineSetLauncher] as the class defines it; [python] stands for the
    quoted [sys.executable]. *)
Definition PBS_default_template (python : string) : string :=
  "#!/bin/sh" ++ nl ++ "#PBS -V" ++ nl ++ "#PBS -N ipengine" ++ nl ++
  python ++ " -m ipyparallel.engine --profile-dir=" ++ dquote ++ "{profile_dir}" ++ dquote
         ++ " --cluster-id=" ++ dquote ++ "{cluster_id}" ++ dquote ++ nl.

End Batch.

(** ** The pid-file checks of [ipcluster stop] and [ipcluster start] *)

Module IPCluster.

(** Exit codes for ipcluster. *)
Definition ALREADY_STARTED : Z := 10.
Definition ALREADY_STOPPED : Z := 11.
Definition NO_CLUSTER : Z := 12.

Inductive OsName := posix | nt | other_os.

(** What the application did to its surroundings. *)
Inductive Action :=
| remove_pid_file
| write_pid_file
| kill (pid : Z) (sig : Z)
| taskkill (pid : Z)
| run_loop.

(** How [start] ends: [self.exit(status)] leaves the process with that
    status; returning lets the process end normally. *)
Inductive Ending :=
| Exit (status : Z)
| Returns.

Definition exit_status (e : Ending) : Z :=
  match e with
  | Exit status => status
  | Returns => 0
  end.

(** [IPClusterStop.start]: [pid_file] is what [get_pid_from_file] answers
    ([None] when it raises [PIDFileError]), [check_pid] says whether a pid is
    alive, [kill_ok] whether [os.kill] or [taskkill] goes through. *)
Definition IPClusterStop_start (pid_file : option Z) (check_pid : Z -> bool)
           (os_name : OsName) (sig : Z) (kill_ok : bool) : list Action * Ending :=
  match pid_file with
  | None => ([remove_pid_file], Exit ALREADY_STOPPED)
  | Some pid =>
      if negb (check_pid pid) then ([remove_pid_file], Exit ALREADY_STOPPED)
      else
        match os_name with
        | posix =>
            if kill_ok then ([kill pid sig], Returns)
            else ([kill pid sig; remove_pid_file], Returns)
        | nt => ([taskkill pid; remove_pid_file], Returns)
        | other_os => ([], Returns)
        end
  end.

(** [IPClusterStart.start], up to the event loop: the cluster is started
    unless a live pid is recorded. *)
Definition IPClusterStart_start (pid_file : option Z) (check_pid : Z -> bool)
  : list Action * Ending :=
  match pid_file with
  | None => ([write_pid_file; run_loop; remove_pid_file], Returns)
  | Some pid =>
      if check_pid pid then ([], Exit ALREADY_STARTED)
      else ([remove_pid_file; write_pid_file; run_loop; remove_pid_file], Returns)
  end.

End IPCluster.

(** ** Sequences of operations on a process launcher *)

(** The order before < running < after. *)
Definition rank (s : State) : nat :=
  match s with
  | before => 0
  | running => 1
  | after => 2
  end.

(** One call on the process launcher at a reference, with the answer of the
    operating system where the call asks for one. *)
Inductive Op :=
| op_start (popen : option Z)
| op_stop
| op_signal (sig : Signal)
| op_notify_start (data : Data)
| op_notify_stop (data : Data)
| op_on_stop (name : string)
| op_poll (status : option Z).

Definition run_op (r : nat) (op : Op) : M World unit :=
  match op with
  | op_start popen => start r popen ;;; ret tt
  | op_stop => stop r ;;; ret tt
  | op_signal sig => signal r sig ;;; ret tt
  | op_notify_start data => proc_notify_start r data ;;; ret tt
  | op_notify_stop data => proc_notify_stop r data ;;; ret tt
  | op_on_stop name => proc_on_stop r (Observer name) ;;; ret tt
  | op_poll status => poll r status ;;; ret tt
  end.

(** The calls are made one after the other; a call that raises leaves the
    world as it was when it raised, and the next call goes on from there. *)
Fixpoint run_ops (r : nat) (ops : list Op) (w : World) : World :=
  match ops with
  | [] => w
  | op :: tl => run_ops r tl (exec (run_op r op) w)
  end.

Definition is_notify_start (op : Op) : bool :=
  match op with
  | op_notify_start _ => true
  | _ => false
  end.

(** No call of the sequence is a [notify_start] on a launcher that is in
    [after] when the call is made. *)
Fixpoint notify_start_not_from_after (r : nat) (ops : list Op) (w : World) : bool :=
  match ops with
  | [] => true
  | op :: tl =>
      (negb (is_notify_start op) || negb (State_eqb (state (proc_base r w)) after))
      && notify_start_not_from_after r tl (exec (run_op r op) w)
  end.

(** A world with one process launcher, just constructed, at reference 0. *)
Definition one_launcher_world : World :=
  set_procs [LocalProcessLauncher_init] empty_world.

(** ** Launchers as configured *)

(** A [PBSEngineSetLauncher] in [work_dir] ['.'], configured with a queue
    and a batch template (either may be empty); setting the queue runs
    [_queue_changed], which copies it to the context. *)
Definition PBSEngineSetLauncher (queue batch_template : string)
  : Batch.BatchSystemLauncher :=
  Batch.mkBatchSystemLauncher
    Batch.Plain (BaseLauncher_init DNone) ["qsub"] ["qdel"]
    digits_regexp 0 batch_template EmptyString queue 1
    PBS_job_array_regexp "#PBS -t 1-{n}"
    PBS_queue_regexp "#PBS -q {queue}"
    (Batch.PBS_default_template "python") "./pbs_engines"
    (if Batch.truthy queue
     then Batch.str_set "queue" queue Batch.context_default
     else Batch.context_default)
    [] Batch.format_names None EmptyString EmptyString EmptyString.

Definition batch_world (l : Batch.BatchSystemLauncher) : Batch.World :=
  Batch.mkWorld l [] [] [].

(** The calls received by the application's callables, as a projection of
    the batch world and of the local world. *)
Definition batch_log (w : Batch.World) : list (string * Data) := Batch.observed w.
Definition local_log (w : World) : list (string * Data) := observed w.

(** A PBS launcher that was started as job 7 and stopped, with the payload
    of its stop stored. *)
Definition stopped_batch_world : Batch.World :=
  batch_world
    (Batch.set_job_id (Some "7")
       (Batch.set_base (mkBaseLauncher after (DStr "7") (DJob "7" "ok") [])
                       (PBSEngineSetLauncher "gpu" EmptyString))).

(** A PBS launcher on which [on_stop] was called twice. *)
Definition two_callbacks_world : Batch.World :=
  exec (Batch.on_stop "second")
       (exec (Batch.on_stop "first")
             (batch_world (PBSEngineSetLauncher EmptyString EmptyString))).

(** A PBS launcher with queue [gpu] and a stop observer, not started. *)
Definition observed_batch_world : Batch.World :=
  exec (Batch.on_stop "engines_stopped")
       (batch_world (PBSEngineSetLauncher "gpu" EmptyString)).


(** Calls that a supervisor makes on one launcher. *)
Definition sample_ops : list Op :=
  [op_start (Some 100%Z); op_notify_start (DInt 100); op_stop; op_signal SIGTERM;
   op_poll None; op_poll (Some 0%Z); op_start (Some 101%Z); op_on_stop "late";
   op_stop].

(** ** Vocabulary of the properties *)

(** A launcher whose callbacks are callables of the application: a world in
    which the launcher can be read and written, where calling a callback
    records the call in [log], returns, and leaves the launcher alone. *)
Section ObserverLaws.
Context {C W : Type}.
Variable self : W -> BaseLauncher C.
Variable set_self : BaseLauncher C -> W -> W.
Variable log : W -> list (C * Data).
Variable call : C -> Data -> M W Data.

Record observer_laws : Prop := {
  self_set_self : forall b w, self (set_self b w) = b;
  log_set_self : forall b w, log (set_self b w) = log w;
  call_records : forall c d w,
      exists w', call c d w = Return DNone w'
                 /\ self w' = self w /\ log w' = log w ++ [(c, d)]
}.
End ObserverLaws.

(** [preserves R m]: whatever [m] does, returning or raising, the world it
    leaves is related by [R] to the world it started from. *)
Definition preserves {W A} (R : W -> W -> Prop) (m : M W A) : Prop :=
  forall w, R w (world_of (m w)).

(** The process launcher objects are left alone. *)
Definition same_procs (w w' : World) : Prop := procs w' = procs w.

(** The store keeps its size and the state of the launcher at [r] does not
    move back. *)
Definition forward (r : nat) (w w' : World) : Prop :=
  length (procs w') = length (procs w)
  /\ rank (state (proc_base r w)) <= rank (state (proc_base r w')).

(** What writing the batch script leaves alone: the launcher's state,
    payloads and callbacks, its job id and job-id pattern, and the calls its
    observers received. *)
Definition submission_untouched (w w' : Batch.World) : Prop :=
  Batch.base (Batch.launcher w') = Batch.base (Batch.launcher w)
  /\ Batch.observed w' = Batch.observed w
  /\ Batch.job_id (Batch.launcher w') = Batch.job_id (Batch.launcher w)
  /\ Batch.job_id_regexp (Batch.launcher w') = Batch.job_id_regexp (Batch.launcher w).

(** An engine launcher as [LocalEngineSetLauncher.start] leaves it: running
    as [pid], with the engine set's method as its only stop callback. *)
Definition started_engine (pid : Z) : LocalProcessLauncher :=
  mkLocalProcessLauncher
    (mkBaseLauncher running (DInt pid) DNone [bound_notice_engine_stopped])
    (Some pid) true None.

(** The world after one round of the loop of [LocalEngineSetLauncher.start]
    for engine [i], spawned as [pid]. *)
Definition after_engine_start (i : nat) (pid : Z) (w : World) : World :=
  mkWorld (procs w ++ [started_engine pid])
          (mkLocalEngineSetLauncher
             (es_base (eset w))
             (dict_set i (length (procs w)) (launchers (eset w)))
             (delay (eset w)))
          (if Nat.ltb 0 i then (loop_time w + delay (eset w))%Q else loop_time w)
          (timeouts w) (WINDOWS w) (signal_raises w) (os_events w) (observed w).

(** What [signal] sends for the launcher at [el]: nothing unless it is
    running; a tree kill on Windows for every signal but the interrupt. *)
Definition signal_event (w : World) (sig : Signal) (el : nat) : list OsEvent :=
  if State_eqb (state (proc_base el w)) running then
    match process (proc el w) with
    | Some pid =>
        if WINDOWS w && negb (Signal_eqb sig SIGINT)
        then [TaskKill pid] else [SendSignal pid sig]
    | None => []
    end
  else [].

(** Signalling the launcher at [el] goes through: it is not running, or it
    has a process for which signalling does not raise. *)
Definition signal_goes_through (w : World) (el : nat) : Prop :=
  state (proc_base el w) <> running
  \/ exists pid, process (proc el w) = Some pid /\ signal_raises w pid = false.

(** The engine at [el] runs as a process other than [pid]. *)
Definition other_pid (w : World) (pid : Z) (el : nat) : Prop :=
  exists pid', process (proc el w) = Some pid' /\ pid' <> pid.

(** An engine launcher on which the engine set registered its method and
    whose process could not be spawned. *)
Definition registered_engine : LocalProcessLauncher :=
  mkLocalProcessLauncher
    (mkBaseLauncher before DNone DNone [bound_notice_engine_stopped])
    None false None.

(** An engine set that started two engines, as pids 100 and 101. *)
Definition two_engines_world : World :=
  exec (eset_start 2 (fun i => Some (100 + Z.of_nat i)%Z)) empty_world.

(** The same engines on a platform where signalling pid 101 raises. *)
Definition unreachable_engine_world : World :=
  mkWorld (procs two_engines_world) (eset two_engines_world)
          (loop_time two_engines_world) (timeouts two_engines_world)
          false (fun pid => Z.eqb pid 101) [] [].

(** A [Popen] that fails for engine 1 and spawns the others as 100 + i. *)
Definition popen_fails_at_1 (i : nat) : option Z :=
  if Nat.eqb i 1 then None else Some (100 + Z.of_nat i)%Z.

(** The process launcher objects and the mapping of the engine set are
    left alone. *)
Definition same_engines (w w' : World) : Prop :=
  procs w' = procs w /\ launchers (eset w') = launchers (eset w).

(** What the launcher runs and how it names its job are left alone: the
    commands run so far, the submit and delete commands, the path of the
    batch script and the group of the job id pattern. *)
Definition commands_untouched (w w' : Batch.World) : Prop :=
  Batch.commands w' = Batch.commands w
  /\ Batch.submit_command (Batch.launcher w') = Batch.submit_command (Batch.launcher w)
  /\ Batch.delete_command (Batch.launcher w') = Batch.delete_command (Batch.launcher w)
  /\ Batch.batch_file (Batch.launcher w') = Batch.batch_file (Batch.launcher w)
  /\ Batch.job_id_regexp_group (Batch.launcher w')
     = Batch.job_id_regexp_group (Batch.launcher w).

(** What [qsub] prints for job 12345. *)
Definition qsub_output : string := "12345.pbs-server" ++ nl.

(** * Properties *)

(** ** The model on the launchers' own patterns and templates *)

Example job_id_of_qsub_output :
  search digits_regexp "12345.server" = Some (mkMatch "12345" []).
Proof. reflexivity. Qed.

Example job_id_of_condor_output :
  search HTCondor_job_id_regexp ("1 job(s) submitted to cluster 42." ++ nl)
  = Some (mkMatch "42." [(1, "42")]).
Proof. reflexivity. Qed.

Example no_job_id_in_error_output :
  search digits_regexp "qsub: Unknown queue" = None.
Proof. reflexivity. Qed.

Example queue_template_is_a_queue_directive :
  found (search PBS_queue_regexp "#PBS -q {queue}") = true
  /\ found (search SGE_queue_regexp "#$ -q {queue}") = true
  /\ found (search Batch.Slurm_queue_regexp "#SBATCH --partition={queue}") = true.
Proof. repeat split. Qed.

Example default_template_has_no_queue_directive :
  search PBS_queue_regexp (Batch.PBS_default_template "python") = None
  /\ search PBS_job_array_regexp (Batch.PBS_default_template "python") = None.
Proof. split; reflexivity. Qed.

(** The script a PBS engine launcher with queue [gpu] writes for 4 engines
    from its default template: the job-array line, inserted last, comes
    before the queue line. *)
Example pbs_script_written :
  Batch.files (exec (Batch.write_batch_script 4 None)
                    (batch_world (PBSEngineSetLauncher "gpu" EmptyString)))
  = [("./pbs_engines",
      ("#!/bin/sh" ++ nl ++ "#PBS -t 1-4" ++ nl ++ "#PBS -q gpu" ++ nl
       ++ "#PBS -V" ++ nl ++ "#PBS -N ipengine" ++ nl
       ++ "python -m ipyparallel.engine --profile-dir=" ++ dquote ++ dquote
       ++ " --cluster-id=" ++ dquote ++ dquote ++ nl)%string)].
Proof. reflexivity. Qed.

Example one_line_template_cannot_be_split :
  split_first_line "#!/bin/sh" = None.
Proof. reflexivity. Qed.

(** ** The callback list of a launcher *)

Lemma list_pop_last {A} (l : list A) (x : A) : list_pop (l ++ [x]) = Some (x, l).
Proof.
  induction l as [|y l IH]; [reflexivity|].
  change ((y :: l) ++ [x]) with (y :: (l ++ [x])).
  simpl. rewrite IH.
  destruct (l ++ [x]) eqn:E; [destruct l; discriminate|reflexivity].
Qed.

Lemma list_pop_nil_inv {A} (l : list A) : list_pop l = None -> l = [].
Proof.
  destruct l as [|x l] using rev_ind; [reflexivity|].
  rewrite list_pop_last. discriminate.
Qed.

Section ObserverLauncher.
Context {C W : Type}.
Variable self : W -> BaseLauncher C.
Variable set_self : BaseLauncher C -> W -> W.
Variable log : W -> list (C * Data).
Variable call : C -> Data -> M W Data.

Hypothesis laws : observer_laws self set_self log call.

Lemma pop_callback_last (w : W) (cs : list C) (c : C) :
  stop_callbacks (self w) = cs ++ [c] ->
  pop_callback self set_self w
  = Return c (set_self (set_stop_callbacks cs (self w)) w).
Proof.
  intros E. unfold pop_callback, bind, gets. rewrite E, list_pop_last.
  reflexivity.
Qed.

(** The loop of [notify_stop] empties the list from its end. *)
Lemma drain_callbacks_spec (data : Data) (cs : list C) :
  forall w, stop_callbacks (self w) = cs ->
    exists w',
      drain_callbacks self set_self call (length cs) data w = Return tt w'
      /\ self w' = set_stop_callbacks [] (self w)
      /\ log w' = log w ++ map (fun c => (c, data)) (rev cs).
Proof.
  induction cs as [|c cs IH] using rev_ind; intros w E.
  - exists w. simpl. repeat split.
    + destruct (self w); simpl in *; subst; reflexivity.
    + now rewrite app_nil_r.
  - rewrite length_app, Nat.add_comm. simpl.
    unfold bind at 1. rewrite (@pop_callback_last w cs c E).
    set (w1 := set_self (set_stop_callbacks cs (self w)) w).
    destruct (call_records laws c data w1) as (w2 & Hc & Hs & Hl).
    unfold bind at 1. rewrite Hc.
    assert (E2 : stop_callbacks (self w2) = cs).
    { rewrite Hs. unfold w1. now rewrite (self_set_self laws). }
    destruct (IH w2 E2) as (w3 & Hd & Hs3 & Hl3).
    exists w3. split; [exact Hd|]. split.
    + rewrite Hs3, Hs. unfold w1. now rewrite (self_set_self laws).
    + rewrite Hl3, Hl. unfold w1. rewrite (log_set_self laws).
      rewrite rev_app_distr. simpl. now rewrite <- app_assoc.
Qed.

Lemma notify_stop_spec (data : Data) (w : W) :
  exists w',
    notify_stop self set_self call data w = Return data w'
    /\ self w' = mkBaseLauncher after (start_data (self w)) data []
    /\ log w' = log w ++ map (fun c => (c, data)) (rev (stop_callbacks (self w))).
Proof.
  unfold notify_stop, update_self, bind, modify, gets.
  set (w1 := set_self _ (set_self _ w)).
  assert (E1 : self w1 = mkBaseLauncher after (start_data (self w)) data
                                        (stop_callbacks (self w))).
  { unfold w1. now rewrite !(self_set_self laws). }
  assert (L1 : log w1 = log w).
  { unfold w1. now rewrite !(log_set_self laws). }
  destruct (@drain_callbacks_spec data _ w1 eq_refl) as (w2 & Hd & Hs & Hl).
  rewrite Hd. exists w2. split; [reflexivity|]. split.
  - rewrite Hs, E1. reflexivity.
  - rewrite Hl, L1, E1. reflexivity.
Qed.

(** C3, as amended.  When [notify_stop data] is called, the launcher goes
    to [after] with [data] as its stop payload, every callback registered
    with [on_stop] is called exactly once with [data], the last registered
    first (the list is emptied from its end), and the list is empty
    afterwards; a second [notify_stop] calls no callback. *)
Theorem notify_stop_calls_last_registered_first (data : Data) (w : W) :
  exists w',
    notify_stop self set_self call data w = Return data w'
    /\ state (self w') = after
    /\ stop_data (self w') = data
    /\ stop_callbacks (self w') = []
    /\ log w' = log w ++ map (fun c => (c, data)) (rev (stop_callbacks (self w)))
    /\ forall data',
        log (exec (notify_stop self set_self call data') w') = log w'.
Proof.
  destruct (notify_stop_spec data w) as (w' & Hn & Hs & Hl).
  exists w'. rewrite Hs. repeat split; try assumption.
  intros data'. destruct (notify_stop_spec data' w') as (w'' & Hn' & _ & Hl').
  unfold exec. rewrite Hn'. simpl. rewrite Hl', Hs. simpl. apply app_nil_r.
Qed.

(** C2.  On a launcher in [after], [on_stop f] calls [f] at once, once,
    with the stored stop payload, and does not register it: a later stop
    notification calls the callbacks registered before and not [f] again.
    On a launcher not in [after], [on_stop f] appends [f] to the callbacks
    and calls nothing. *)
Theorem on_stop_calls_now_or_registers (f : C) (w : W) :
  (state (self w) = after ->
   exists w1,
     on_stop self set_self call f w = Return DNone w1
     /\ self w1 = self w
     /\ log w1 = log w ++ [(f, stop_data (self w))]
     /\ forall data,
         log (exec (notify_stop self set_self call data) w1)
         = log w1 ++ map (fun c => (c, data)) (rev (stop_callbacks (self w))))
  /\
  (state (self w) <> after ->
   exists w1,
     on_stop self set_self call f w = Return DNone w1
     /\ self w1 = set_stop_callbacks (stop_callbacks (self w) ++ [f]) (self w)
     /\ log w1 = log w).
Proof.
  split; intros Hst.
  - unfold on_stop, bind, gets. rewrite Hst. simpl.
    destruct (call_records laws f (stop_data (self w)) w) as (w1 & Hc & Hs & Hl).
    exists w1. repeat split; try assumption.
    intros data. destruct (notify_stop_spec data w1) as (w2 & Hn & _ & Hl2).
    unfold exec. rewrite Hn. simpl. now rewrite Hl2, Hs.
  - unfold on_stop, update_self, bind, gets, modify, ret.
    destruct (state (self w)) eqn:E; try congruence; simpl;
      eexists; (split; [reflexivity|]);
      now rewrite (self_set_self laws), (log_set_self laws).
Qed.
End ObserverLauncher.

(** The batch launcher and the engine set are such launchers. *)
Lemma batch_observer_laws :
  observer_laws Batch.self_base Batch.set_self_base batch_log Batch.call_observer.
Proof.
  constructor; intros.
  - destruct w as [[]]; reflexivity.
  - reflexivity.
  - eexists. split; [reflexivity|]. split; reflexivity.
Qed.

Lemma eset_observer_laws :
  observer_laws eset_base set_eset_base local_log call_observer.
Proof.
  constructor; intros.
  - destruct w as [? [] ? ? ? ? ? ?]; reflexivity.
  - reflexivity.
  - eexists. split; [reflexivity|]. split; reflexivity.
Qed.

(** ** What a computation preserves *)


Section Preservation.
Context {W : Type} (R : W -> W -> Prop).
Hypothesis R_refl : forall w, R w w.
Hypothesis R_trans : forall a b c, R a b -> R b c -> R a c.

Lemma preserves_ret {A} (a : A) : preserves R (ret a).
Proof. intros w. apply R_refl. Qed.

Lemma preserves_raise {A} (e : Exception) : preserves R (raise (A := A) e).
Proof. intros w. apply R_refl. Qed.

Lemma preserves_gets {A} (f : W -> A) : preserves R (gets f).
Proof. intros w. apply R_refl. Qed.

Lemma preserves_modify (f : W -> W) :
  (forall w, R w (f w)) -> preserves R (modify f).
Proof. intros H w. apply H. Qed.

Lemma preserves_bind {A B} (m : M W A) (k : A -> M W B) :
  preserves R m -> (forall a, preserves R (k a)) -> preserves R (bind m k).
Proof.
  intros Hm Hk w. unfold bind. specialize (Hm w).
  destruct (m w) as [a w'|e w']; simpl in *; [|exact Hm].
  eapply R_trans; [exact Hm|apply Hk].
Qed.

Lemma preserves_try_except {A} (m : M W A) (h : Exception -> M W A) :
  preserves R m -> (forall e, preserves R (h e)) -> preserves R (try_except m h).
Proof.
  intros Hm Hh w. unfold try_except. specialize (Hm w).
  destruct (m w) as [a w'|e w']; simpl in *; [exact Hm|].
  eapply R_trans; [exact Hm|apply Hh].
Qed.
End Preservation.

(** Breaks a computation into its steps, leaving the writes to the world;
    [known] is tried on every step before it is broken further. *)
Ltac preserve_steps_with known :=
  repeat first
    [ solve [known]
    | apply preserves_ret; solve [auto]
    | apply preserves_raise; solve [auto]
    | apply preserves_gets; solve [auto]
    | apply preserves_bind; [solve [eauto] | | intros ]
    | apply preserves_try_except; [solve [eauto] | | intros ]
    | match goal with
      | |- preserves _ (if ?b then _ else _) => destruct b
      | |- preserves _ (match ?x with _ => _ end) => destruct x
      end ].
Ltac preserve_steps := preserve_steps_with fail.

(** *** The process launcher objects are left alone *)


Lemma same_procs_refl w : same_procs w w.
Proof. reflexivity. Qed.

Lemma same_procs_trans a b c : same_procs a b -> same_procs b c -> same_procs a c.
Proof. unfold same_procs. congruence. Qed.

#[local] Hint Resolve same_procs_refl same_procs_trans : core.

Lemma call_observer_same_procs name data :
  preserves same_procs (call_observer name data).
Proof. intros w. reflexivity. Qed.

Lemma eset_update_same_procs f :
  preserves same_procs (update_self eset_base set_eset_base f).
Proof. intros w. reflexivity. Qed.

Lemma eset_drain_same_procs n data :
  preserves same_procs (drain_callbacks eset_base set_eset_base call_observer n data).
Proof.
  induction n as [|n IH]; simpl; [apply preserves_ret; auto|].
  unfold pop_callback. preserve_steps;
    auto using eset_update_same_procs; intros w; reflexivity.
Qed.

Lemma eset_notify_stop_same_procs data :
  preserves same_procs (eset_notify_stop data).
Proof.
  unfold eset_notify_stop, notify_stop. preserve_steps;
    auto using eset_drain_same_procs, eset_update_same_procs; intros w; reflexivity.
Qed.

Lemma find_engine_same_procs pid ls idx :
  preserves same_procs (find_engine pid ls idx).
Proof.
  revert idx. induction ls as [|[i el] ls IH]; intros idx; simpl; preserve_steps.
  apply IH.
Qed.

Lemma notice_engine_stopped_same_procs data :
  preserves same_procs (_notice_engine_stopped data).
Proof.
  unfold _notice_engine_stopped, data_pid, launchers_pop, stop_data_setitem.
  preserve_steps;
    auto using find_engine_same_procs, eset_drain_same_procs,
               eset_update_same_procs;
    intros w; reflexivity.
Qed.

Lemma call_callback_same_procs f data :
  preserves same_procs (call_callback f data).
Proof.
  destruct f; simpl;
    auto using call_observer_same_procs, notice_engine_stopped_same_procs.
Qed.

(** *** The object store *)

Lemma length_list_set {A} (n : nat) (x : A) (l : list A) :
  length (list_set n x l) = length l.
Proof.
  revert n. induction l as [|y l IH]; intros [|n]; simpl; auto.
Qed.

Lemma nth_list_set {A} (n : nat) (x : A) (l : list A) (d : A) :
  nth n (list_set n x l) d = if (n <? length l)%nat then x else nth n l d.
Proof.
  revert n. induction l as [|y l IH]; intros [|n]; simpl; auto.
Qed.

Lemma proc_set_proc (r : nat) (p : LocalProcessLauncher) (w : World) :
  proc r (set_proc r p w) = if (r <? length (procs w))%nat then p else proc r w.
Proof. unfold proc, set_proc. simpl. apply nth_list_set. Qed.

Lemma length_procs_set_proc (r : nat) (p : LocalProcessLauncher) (w : World) :
  length (procs (set_proc r p w)) = length (procs w).
Proof. simpl. apply length_list_set. Qed.

Lemma proc_set_proc_in (r : nat) (p : LocalProcessLauncher) (w : World) :
  r < length (procs w) -> proc r (set_proc r p w) = p.
Proof.
  intros H. rewrite proc_set_proc. apply Nat.ltb_lt in H. now rewrite H.
Qed.

Lemma proc_set_proc_out (r : nat) (p : LocalProcessLauncher) (w : World) :
  length (procs w) <= r -> set_proc r p w = w.
Proof.
  intros H. unfold set_proc, set_procs. destruct w as [ps ? ? ? ? ? ? ?]. simpl in *.
  f_equal. revert r H. induction ps as [|q ps IH]; intros [|r] H; simpl in *;
    try reflexivity; try lia.
  f_equal. apply IH. lia.
Qed.

(** Reads back what was written to the object at a valid reference. *)
Ltac store_simpl :=
  unfold proc_base, set_proc_base;
  repeat (rewrite proc_set_proc_in by (rewrite ?length_procs_set_proc; assumption));
  simpl.

Lemma proc_default (r : nat) (w : World) :
  length (procs w) <= r -> proc r w = LocalProcessLauncher_init.
Proof. intros H. unfold proc. now apply nth_overflow. Qed.

(** *** The state of a process launcher only moves forward *)


Lemma forward_refl r w : forward r w w.
Proof. split; auto. Qed.

Lemma forward_trans r a b c : forward r a b -> forward r b c -> forward r a c.
Proof. unfold forward. intros [] []. split; [congruence|lia]. Qed.

#[local] Hint Resolve forward_refl forward_trans : core.

Lemma same_procs_forward r {A} (m : M World A) :
  preserves same_procs m -> preserves (forward r) m.
Proof.
  intros H w. specialize (H w). unfold same_procs in H.
  unfold forward, proc_base, proc. rewrite H. auto.
Qed.

Lemma set_proc_forward (r : nat) (p : LocalProcessLauncher) (w : World) :
  rank (state (proc_base r w)) <= rank (state (base p)) ->
  forward r w (set_proc r p w).
Proof.
  intros H. split.
  - simpl. apply length_list_set.
  - unfold proc_base. rewrite proc_set_proc.
    destruct (r <? length (procs w))%nat; auto.
Qed.

Lemma update_proc_forward (r : nat) f :
  (forall p, rank (state (base p)) <= rank (state (base (f p)))) ->
  preserves (forward r) (update_proc r f).
Proof. intros H w. apply set_proc_forward, H. Qed.

Lemma update_base_forward (r : nat) f :
  (forall b, rank (state b) <= rank (state (f b))) ->
  preserves (forward r) (update_self (proc_base r) (set_proc_base r) f).
Proof. intros H w. apply set_proc_forward, H. Qed.

Lemma rank_le_after (s : State) : rank s <= rank after.
Proof. destruct s; simpl; lia. Qed.

Lemma proc_drain_forward (r n : nat) (data : Data) :
  preserves (forward r)
    (drain_callbacks (proc_base r) (set_proc_base r) call_callback n data).
Proof.
  induction n as [|n IH]; simpl; [apply preserves_ret; auto|].
  unfold pop_callback. preserve_steps; auto.
  - apply update_base_forward. intros b. simpl. lia.
  - apply same_procs_forward, call_callback_same_procs.
Qed.

Lemma proc_notify_stop_forward (r : nat) (data : Data) :
  preserves (forward r) (proc_notify_stop r data).
Proof.
  unfold proc_notify_stop, notify_stop. preserve_steps;
    auto using proc_drain_forward.
  - apply update_base_forward. intros b. simpl. lia.
  - apply update_base_forward. intros b. apply rank_le_after.
Qed.

Lemma proc_on_stop_forward (r : nat) (f : Callback) :
  preserves (forward r) (proc_on_stop r f).
Proof.
  unfold proc_on_stop, on_stop. preserve_steps.
  - apply same_procs_forward, call_callback_same_procs.
  - apply update_base_forward. intros b. simpl. lia.
Qed.

Lemma signal_same_procs (r : nat) (sig : Signal) :
  preserves same_procs (signal r sig).
Proof. unfold signal, os_emit. preserve_steps; intros w; reflexivity. Qed.

Lemma interrupt_then_kill_forward (r : nat) (d : Q) :
  preserves (forward r) (interrupt_then_kill r d).
Proof.
  unfold interrupt_then_kill, add_timeout.
  preserve_steps_with ltac:(apply same_procs_forward, signal_same_procs).
  - apply same_procs_forward. intros w. reflexivity.
  - apply update_proc_forward. intros p. simpl. lia.
Qed.

Lemma poll_forward (r : nat) (status : option Z) :
  preserves (forward r) (poll r status).
Proof.
  unfold poll. preserve_steps_with ltac:(apply proc_notify_stop_forward).
  apply update_proc_forward. intros p. simpl. lia.
Qed.

Lemma State_eqb_eq (a b : State) : State_eqb a b = true <-> a = b.
Proof. destruct a, b; simpl; split; congruence. Qed.

Lemma start_forward (r : nat) (popen : option Z) :
  preserves (forward r) (start r popen).
Proof.
  intros w. unfold start, bind, gets.
  destruct (State_eqb (state (proc_base r w)) before) eqn:E; [|apply forward_refl].
  apply State_eqb_eq in E.
  destruct popen as [pid|]; [|apply forward_refl].
  simpl. split.
  - simpl. now rewrite !length_list_set.
  - rewrite E. simpl. lia.
Qed.

Lemma state_set_proc (r : nat) (p : LocalProcessLauncher) (w : World) :
  state (base p) = state (proc_base r w) ->
  state (proc_base r (set_proc r p w)) = state (proc_base r w).
Proof.
  intros E. unfold proc_base. rewrite proc_set_proc.
  destruct (r <? length (procs w))%nat; [exact E|reflexivity].
Qed.

Lemma proc_notify_start_forward (r : nat) (data : Data) (w : World) :
  state (proc_base r w) <> after ->
  forward r w (exec (proc_notify_start r data) w).
Proof.
  intros N. unfold exec, proc_notify_start, notify_start, update_self, bind, modify, ret.
  simpl. unfold set_proc_base at 1.
  set (w1 := set_proc_base r (set_start_data data (proc_base r w)) w).
  assert (E1 : state (proc_base r w1) = state (proc_base r w)).
  { unfold w1, set_proc_base. apply state_set_proc. reflexivity. }
  assert (F1 : forward r w w1).
  { unfold w1, set_proc_base. apply set_proc_forward. simpl. lia. }
  eapply forward_trans; [exact F1|].
  apply set_proc_forward. simpl. rewrite E1.
  destruct (state (proc_base r w)); simpl; try lia; congruence.
Qed.

Lemma run_op_forward (r : nat) (op : Op) (w : World) :
  negb (is_notify_start op) || negb (State_eqb (state (proc_base r w)) after) = true ->
  forward r w (exec (run_op r op) w).
Proof.
  intros H.
  assert (K : forall A (m : M World A),
             preserves (forward r) m -> forward r w (exec (m ;;; ret tt) w)).
  { intros A m Hm.
    assert (P : preserves (forward r) (m ;;; ret tt)).
    { apply preserves_bind; [apply forward_trans|exact Hm|].
      intros a. apply preserves_ret, forward_refl. }
    apply P. }
  destruct op; simpl in *.
  - apply K, start_forward.
  - apply K, interrupt_then_kill_forward.
  - apply K, same_procs_forward, signal_same_procs.
  - assert (N : state (proc_base r w) <> after).
    { intros E. rewrite E in H. discriminate. }
    pose proof (@proc_notify_start_forward r data w N) as F.
    unfold exec, bind in *.
    destruct (proc_notify_start r data w); exact F.
  - apply K, proc_notify_stop_forward.
  - apply K, proc_on_stop_forward.
  - apply K, poll_forward.
Qed.

Lemma run_ops_forward (r : nat) (ops : list Op) :
  forall w, notify_start_not_from_after r ops w = true ->
            forward r w (run_ops r ops w).
Proof.
  induction ops as [|op ops IH]; simpl; intros w H; [apply forward_refl|].
  apply andb_prop in H. destruct H as [H1 H2].
  eapply forward_trans; [|apply IH, H2].
  apply run_op_forward, H1.
Qed.

(** C9, as amended.  On a process launcher, every sequence of calls to
    [start], [stop], [signal], [notify_start], [notify_stop], [on_stop] and
    [poll] in which [notify_start] is not called on a launcher that is in
    [after] moves the state forward only along before, running, after: a
    launcher in [after] stays there. *)
Theorem state_only_moves_forward (r : nat) (ops : list Op) (w : World) :
  notify_start_not_from_after r ops w = true ->
  rank (state (proc_base r w)) <= rank (state (proc_base r (run_ops r ops w)))
  /\ (state (proc_base r w) = after -> state (proc_base r (run_ops r ops w)) = after).
Proof.
  intros H. destruct (run_ops_forward r ops w H) as [_ Hle].
  split; [exact Hle|].
  intros E. rewrite E in Hle.
  destruct (state (proc_base r (run_ops r ops w))); simpl in Hle; try lia; reflexivity.
Qed.

(** [LocalProcessLauncher.start] on a launcher in [before] whose process
    could be spawned runs it and leaves the launcher in [running], with the
    pid as start payload.  In any other state it raises
    [ProcessStateError], whose message says that the process was already
    started and in which state it is, and the world is as it was.  (From
    [before], when the process cannot be spawned, the error of [Popen] is
    raised and the launcher stays in [before].) *)
Lemma process_start_only_from_before (r : nat) (w : World) :
  (forall pid, state (proc_base r w) = before -> r < length (procs w) ->
     exists w',
       start r (Some pid) w = Return DNone w'
       /\ state (proc_base r w') = running
       /\ start_data (proc_base r w') = DInt pid
       /\ process (proc r w') = Some pid
       /\ poller (proc r w') = true)
  /\ (forall popen, state (proc_base r w) <> before ->
        start r popen w
        = Raised (ProcessStateError
                    ("The process was already started and has state: "
                     ++ repr_State (state (proc_base r w)))) w)
  /\ (state (proc_base r w) = before -> start r None w = Raised (OSError "Popen") w).
Proof.
  split; [|split].
  2:{ intros popen E. unfold start, bind, gets.
      destruct (state (proc_base r w)); try congruence; reflexivity. }
  2:{ intros E. unfold start, bind, gets. rewrite E. reflexivity. }
  { intros pid E Hr. unfold start, bind, gets. rewrite E. simpl.
    eexists. split; [reflexivity|].
    unfold exec, notify_start, update_self, update_proc, bind, modify, ret. simpl.
    store_simpl. repeat split; reflexivity. }
Qed.

(** ** Stopping: interrupt now, kill later *)

Lemma nth_list_set_other {A} (n m : nat) (x : A) (l : list A) (d : A) :
  n <> m -> nth m (list_set n x l) d = nth m l d.
Proof.
  revert n m. induction l as [|y l IH]; intros [|n] [|m] H; simpl; auto; congruence.
Qed.





(** ** The engine set and the stop of its engines *)

Lemma find_engine_reads_only (pid : Z) (ls : list (nat * nat)) :
  forall idx w, world_of (find_engine pid ls idx w) = w.
Proof.
  induction ls as [|[i el] ls IH]; intros idx w; simpl; [reflexivity|].
  unfold bind, gets. destruct (process (proc el w)) as [pid'|]; [|reflexivity].
  destruct (Z.eqb pid' pid); [reflexivity|]. apply IH.
Qed.

(** As long as an engine is still in the mapping, [_notice_engine_stopped]
    neither changes the state of the engine set nor calls its observers:
    the stop notification of the set is only reached from a mapping that is
    already empty. *)
Lemma notice_engine_stopped_keeps_state (data : Data) (w : World) :
  launchers (eset w) <> [] ->
  state (eset_base (exec (_notice_engine_stopped data) w)) = state (eset_base w)
  /\ observed (exec (_notice_engine_stopped data) w) = observed w.
Proof.
  intros N. unfold exec.
  remember (_notice_engine_stopped data w) as o eqn:Ho.
  unfold _notice_engine_stopped, bind at 1 in Ho.
  destruct (data_pid data w) as [pid w0|e w0] eqn:Ed.
  2:{ destruct data; unfold data_pid, ret, raise in Ed; inversion Ed; subst.
      all: split; reflexivity. }
  assert (w0 = w)
    by (destruct data; unfold data_pid, ret, raise in Ed; inversion Ed; reflexivity).
  subst w0. unfold bind at 1, gets at 1 in Ho. unfold bind at 1 in Ho.
  pose proof (find_engine_reads_only pid (launchers (eset w)) None w) as Hf.
  destruct (find_engine pid (launchers (eset w)) None w) as [idx w0|e w0];
    simpl in Hf; subst w0; [|subst o; split; reflexivity].
  destruct (launchers (eset w)) as [|x ls] eqn:El; [congruence|].
  destruct idx as [i|]; [|subst o; split; reflexivity].
  unfold launchers_pop, stop_data_setitem, update_self, bind, gets, modify, ret, raise in Ho.
  rewrite El in Ho.
  destruct (dict_mem i (x :: ls)); [|subst o; split; reflexivity].
  match type of Ho with
  | context [match ?d with DDict _ => _ | _ => _ end] => destruct d
  end; subst o; split; reflexivity.
Qed.

(** C1, on the code.  An engine set starts two engines (pids 100 and 101)
    and the application registers a stop observer on the set; both engines
    then exit and [poll] delivers their stop notifications.  They are
    removed from the mapping and their stop data collected, but with the
    mapping empty the set is still [running] and its observer was never
    called. *)
Theorem engine_set_not_stopped_after_last_engine :
  let w1 := exec (eset_on_stop "engines_stopped")
                 (exec (eset_start 2 (fun i => Some (100 + Z.of_nat i)%Z)) empty_world) in
  let w3 := exec (poll 1 (Some 0%Z)) (exec (poll 0 (Some 0%Z)) w1) in
  launchers (eset w1) = [(0, 0); (1, 1)]
  /\ state (eset_base w1) = running
  /\ state (proc_base 0 w3) = after /\ state (proc_base 1 w3) = after
  /\ launchers (eset w3) = []
  /\ stop_data (eset_base w3) = DDict [(0, DExit 0 100); (1, DExit 0 101)]
  /\ state (eset_base w3) = running
  /\ stop_callbacks (eset_base w3) = ["engines_stopped"]
  /\ observed w3 = [].
Proof. vm_compute. repeat split; reflexivity. Qed.

(** ** Batch launchers *)













(** *** Submitting *)


Lemma submission_untouched_refl w : submission_untouched w w.
Proof. repeat split. Qed.

Lemma submission_untouched_trans a b c :
  submission_untouched a b -> submission_untouched b c -> submission_untouched a c.
Proof. unfold submission_untouched. intros (?&?&?&?) (?&?&?&?). repeat split; congruence. Qed.

#[local] Hint Resolve submission_untouched_refl submission_untouched_trans : core.

Lemma set_batch_template_untouched t :
  preserves submission_untouched (Batch.update_launcher (Batch.set_batch_template t)).
Proof. intros w. repeat split. Qed.

Lemma write_batch_script_untouched n fc :
  preserves submission_untouched (Batch.write_batch_script n fc).
Proof.
  unfold Batch.write_batch_script, Batch._insert_options_in_script,
    Batch._insert_job_array_in_script, Batch.insert_option,
    Batch.insert_after_first_line, Batch.assign_n.
  preserve_steps_with ltac:(apply set_batch_template_untouched);
    try (intros w; repeat split; fail).
  intros w. unfold Batch.update_launcher, modify. simpl.
  destruct (Nat.eqb _ _); repeat split.
Qed.

(** C6, as amended.  When the output of the submit command holds no job
    id, [start] raises: the launcher keeps the state it had (it does not go
    to [after], nor to [running]), its stop payload and callbacks are as
    they were and no stop observer is called; no job id is recorded.  Once
    the batch script was written, the exception is the [LauncherError] that
    quotes the output. *)
Theorem start_raises_without_job_id (n : nat) (fc : option string) (out : string)
        (w : Batch.World) :
  search (Batch.job_id_regexp (Batch.launcher w)) out = None ->
  exists e w',
    Batch.start n fc (Some out) w = Raised e w'
    /\ Batch.base (Batch.launcher w') = Batch.base (Batch.launcher w)
    /\ Batch.observed w' = Batch.observed w
    /\ Batch.job_id (Batch.launcher w') = Batch.job_id (Batch.launcher w)
    /\ (returned (Batch.write_batch_script n fc w) = true ->
        e = LauncherError ("Job id couldn't be determined: " ++ out)).
Proof.
  intros Hs. unfold Batch.start, bind at 1.
  pose proof (write_batch_script_untouched n fc w) as Hw.
  destruct (Batch.write_batch_script n fc w) as [[] w1|e w1]; simpl in Hw.
  - destruct Hw as (Hb & Ho & Hj & Hr).
    unfold Batch.run_command, Batch.parse_job_id, decode, bind, gets, modify, ret, raise.
    simpl. rewrite Hr, Hs.
    eexists; eexists. split; [reflexivity|]. simpl. repeat split; assumption.
  - destruct Hw as (Hb & Ho & Hj & Hr).
    exists e, w1. repeat split; try assumption. discriminate.
Qed.

(** *** Stopping *)

(** When the delete command runs, [stop] delivers the stop notification:
    the launcher goes to [after] with the job id and the output of the
    command as payload, and every callback is called. *)
Lemma stop_notifies_when_delete_runs (j out err : string) (w : Batch.World) :
  Batch.job_id (Batch.launcher w) = Some j ->
  exists w',
    Batch.stop (Some (out, err)) w = Return (out ++ err)%string w'
    /\ Batch.base (Batch.launcher w')
       = mkBaseLauncher after (start_data (Batch.base (Batch.launcher w)))
                        (DJob j (out ++ err)) []
    /\ Batch.observed w'
       = Batch.observed w
         ++ map (fun c => (c, DJob j (out ++ err)))
                (rev (stop_callbacks (Batch.base (Batch.launcher w)))).
Proof.
  intros Hj.
  unfold Batch.stop, Batch.get_job_id, Batch.run_command, try_except, decode,
    Batch.notify_stop, bind, gets, modify, ret, raise.
  rewrite Hj. simpl. rewrite Hj.
  match goal with
  | |- context [notify_stop _ _ _ ?d ?w1] =>
      destruct (notify_stop_spec batch_observer_laws d w1) as (w2 & Hn & Hs & Hl)
  end.
  rewrite Hn. exists w2. split; [reflexivity|].
  split; [exact Hs|exact Hl].
Qed.

(** When the delete command cannot be run, the handler replaces the output
    by a [str], which has no [decode]: [stop] raises and nothing is
    notified. *)
Lemma stop_raises_when_delete_fails (j : string) (w : Batch.World) :
  Batch.job_id (Batch.launcher w) = Some j ->
  Batch.stop None w
  = Raised (AttributeError "'str' object has no attribute 'decode'")
           (Batch.mkWorld (Batch.launcher w) (Batch.files w)
                          (Batch.commands w
                           ++ [Batch.delete_command (Batch.launcher w) ++ [j]])
                          (Batch.observed w)).
Proof.
  intros Hj.
  unfold Batch.stop, Batch.get_job_id, Batch.run_command, try_except, decode,
    bind, gets, modify, ret, raise.
  rewrite Hj. simpl. rewrite Hj. reflexivity.
Qed.

(** C10, on the code.  A PBS engine launcher with a stop observer is
    started and gets job id 12345; the delete command cannot be run when it
    is stopped.  [stop] raises [AttributeError]: the launcher is still
    [running], no stop payload is stored and the observer is not called. *)
Theorem batch_stop_raises_when_delete_fails :
  let w1 := exec (Batch.start 4 None (Some "12345.server"))
                 (exec (Batch.on_stop "engines_stopped")
                       (batch_world (PBSEngineSetLauncher "gpu" EmptyString))) in
  Batch.job_id (Batch.launcher w1) = Some "12345"
  /\ state (Batch.base (Batch.launcher w1)) = running
  /\ exists w2,
      Batch.stop None w1
      = Raised (AttributeError "'str' object has no attribute 'decode'") w2
      /\ state (Batch.base (Batch.launcher w2)) = running
      /\ stop_data (Batch.base (Batch.launcher w2)) = DNone
      /\ stop_callbacks (Batch.base (Batch.launcher w2)) = ["engines_stopped"]
      /\ Batch.observed w2 = [].
Proof.
  vm_compute. split; [reflexivity|]. split; [reflexivity|].
  eexists. split; [reflexivity|]. repeat split; reflexivity.
Qed.

(** ** ipcluster *)

(** C8.  [ipcluster stop] exits with [ALREADY_STOPPED] when there is no pid
    file or the recorded pid is dead; [ipcluster start] exits with
    [ALREADY_STARTED] when the recorded pid is alive; the two statuses differ
    from each other and from 0, the status of the runs that return. *)
Theorem ipcluster_exit_statuses :
  (forall check_pid os_name sig kill_ok,
      snd (IPCluster.IPClusterStop_start None check_pid os_name sig kill_ok)
      = IPCluster.Exit IPCluster.ALREADY_STOPPED)
  /\ (forall pid check_pid os_name sig kill_ok,
         snd (IPCluster.IPClusterStop_start (Some pid) check_pid os_name sig kill_ok)
         = if check_pid pid then IPCluster.Returns
           else IPCluster.Exit IPCluster.ALREADY_STOPPED)
  /\ (forall pid check_pid,
         snd (IPCluster.IPClusterStart_start (Some pid) check_pid)
         = if check_pid pid then IPCluster.Exit IPCluster.ALREADY_STARTED
           else IPCluster.Returns)
  /\ (forall check_pid,
         snd (IPCluster.IPClusterStart_start None check_pid) = IPCluster.Returns)
  /\ IPCluster.ALREADY_STOPPED <> IPCluster.ALREADY_STARTED
  /\ IPCluster.exit_status (IPCluster.Exit IPCluster.ALREADY_STOPPED)
     <> IPCluster.exit_status IPCluster.Returns
  /\ IPCluster.exit_status (IPCluster.Exit IPCluster.ALREADY_STARTED)
     <> IPCluster.exit_status IPCluster.Returns
  /\ IPCluster.exit_status IPCluster.Returns = 0%Z.
Proof.
  repeat split; try discriminate.
  - intros pid check_pid os_name sig kill_ok.
    unfold IPCluster.IPClusterStop_start.
    destruct (check_pid pid); simpl; [|reflexivity].
    destruct os_name; [destruct kill_ok| |]; reflexivity.
  - intros pid check_pid. unfold IPCluster.IPClusterStart_start.
    destruct (check_pid pid); reflexivity.
Qed.

(** ** The theorems at work on concrete launchers *)

(** C2 at a PBS launcher that was stopped with one callback registered
    before: a late [on_stop] is called at once with the stored payload. *)
Lemma on_stop_calls_now_or_registers_witness :
  state (Batch.self_base stopped_batch_world) = after
  /\ exists w1,
      Batch.on_stop "late" stopped_batch_world = Return DNone w1
      /\ Batch.self_base w1 = Batch.self_base stopped_batch_world
      /\ batch_log w1 = batch_log stopped_batch_world ++ [("late", DJob "7" "ok")]
      /\ forall data,
          batch_log (exec (Batch.notify_stop data) w1)
          = batch_log w1 ++ map (fun c => (c, data)) (rev []).
Proof.
  split; [reflexivity|].
  assert (L : observer_laws Batch.self_base Batch.set_self_base batch_log
                            Batch.call_observer).
  { constructor; intros.
    - destruct w as [[]]; reflexivity.
    - reflexivity.
    - eexists. split; [reflexivity|]. split; reflexivity. }
  destruct (@on_stop_calls_now_or_registers _ _ Batch.self_base Batch.set_self_base
              batch_log Batch.call_observer L "late" stopped_batch_world) as [H _].
  exact (H eq_refl).
Defined.

(** C3 at a PBS launcher with two callbacks. *)
Lemma notify_stop_calls_last_registered_first_witness :
  exists w',
    Batch.notify_stop (DJob "7" "ok") two_callbacks_world = Return (DJob "7" "ok") w'
    /\ state (Batch.self_base w') = after
    /\ stop_data (Batch.self_base w') = DJob "7" "ok"
    /\ stop_callbacks (Batch.self_base w') = []
    /\ batch_log w'
       = batch_log two_callbacks_world
         ++ map (fun c => (c, DJob "7" "ok")) (rev ["first"; "second"])
    /\ forall data', batch_log (exec (Batch.notify_stop data') w') = batch_log w'.
Proof.
  assert (L : observer_laws Batch.self_base Batch.set_self_base batch_log
                            Batch.call_observer).
  { constructor; intros.
    - destruct w as [[]]; reflexivity.
    - reflexivity.
    - eexists. split; [reflexivity|]. split; reflexivity. }
  exact (@notify_stop_calls_last_registered_first _ _ Batch.self_base
           Batch.set_self_base batch_log Batch.call_observer L
           (DJob "7" "ok") two_callbacks_world).
Defined.

(** C3 as stated fails: two callbacks registered in the order first, second
    are called in the order second, first. *)
Lemma callbacks_not_called_in_registration_order :
  stop_callbacks (Batch.self_base two_callbacks_world) = ["first"; "second"]
  /\ batch_log (exec (Batch.notify_stop (DJob "7" "ok")) two_callbacks_world)
     = [("second", DJob "7" "ok"); ("first", DJob "7" "ok")]
  /\ batch_log (exec (Batch.notify_stop (DJob "7" "ok")) two_callbacks_world)
     <> [("first", DJob "7" "ok"); ("second", DJob "7" "ok")].
Proof.
  split; [reflexivity|]. split; [reflexivity|]. vm_compute. discriminate.
Qed.

(** C9 at a launcher that is started, stopped, seen to exit, and then
    started again and given a late callback. *)
Lemma state_only_moves_forward_witness :
  rank (state (proc_base 0 one_launcher_world))
  <= rank (state (proc_base 0 (run_ops 0 sample_ops one_launcher_world)))
  /\ (state (proc_base 0 one_launcher_world) = after ->
      state (proc_base 0 (run_ops 0 sample_ops one_launcher_world)) = after).
Proof.
  apply (state_only_moves_forward 0 sample_ops one_launcher_world).
  reflexivity.
Defined.

(** C9 as stated fails: after the launcher reached [after], a call to
    [notify_start] puts it back to [running]. *)
Lemma notify_start_moves_state_back :
  let w2 := run_ops 0 [op_start (Some 100%Z); op_notify_stop (DExit 0 100)]
                    one_launcher_world in
  state (proc_base 0 w2) = after
  /\ state (proc_base 0 (run_ops 0 [op_notify_start (DInt 100)] w2)) = running
  /\ rank (state (proc_base 0 (run_ops 0 [op_notify_start (DInt 100)] w2)))
     < rank (state (proc_base 0 w2)).
Proof. vm_compute. repeat split; try reflexivity. Qed.





(** C6 at a PBS launcher whose submit command printed an error. *)
Lemma start_raises_without_job_id_witness :
  exists e w',
    Batch.start 4 None (Some "qsub: Unknown queue") observed_batch_world = Raised e w'
    /\ Batch.base (Batch.launcher w') = Batch.base (Batch.launcher observed_batch_world)
    /\ Batch.observed w' = Batch.observed observed_batch_world
    /\ Batch.job_id (Batch.launcher w') = Batch.job_id (Batch.launcher observed_batch_world)
    /\ (returned (Batch.write_batch_script 4 None observed_batch_world) = true ->
        e = LauncherError ("Job id couldn't be determined: " ++ "qsub: Unknown queue")).
Proof.
  apply (start_raises_without_job_id 4 None "qsub: Unknown queue" observed_batch_world).
  reflexivity.
Defined.

(** C6 as stated fails: the launcher is left in [before], with no stop
    payload, and its stop observer is not called. *)
Lemma unparseable_job_id_leaves_launcher_before :
  exists w',
    Batch.start 4 None (Some "qsub: Unknown queue") observed_batch_world
    = Raised (LauncherError "Job id couldn't be determined: qsub: Unknown queue") w'
    /\ state (Batch.base (Batch.launcher w')) = before
    /\ state (Batch.base (Batch.launcher w')) <> after
    /\ stop_data (Batch.base (Batch.launcher w')) = DNone
    /\ stop_callbacks (Batch.base (Batch.launcher w')) = ["engines_stopped"]
    /\ Batch.observed w' = [].
Proof.
  vm_compute. eexists. split; [reflexivity|]. repeat split; try reflexivity.
  discriminate.
Qed.

(** * Further properties of the launchers *)

(** ** Starting an engine set *)

Lemma nth_app_last {A} (l : list A) (x d : A) : nth (length l) (l ++ [x]) d = x.
Proof. rewrite app_nth2, Nat.sub_diag; [reflexivity|lia]. Qed.

Lemma list_set_app_last {A} (l : list A) (x y : A) :
  list_set (length l) y (l ++ [x]) = l ++ [y].
Proof. induction l as [|z l IH]; simpl; [reflexivity|]. now rewrite IH. Qed.

Lemma proc_last (l : list LocalProcessLauncher) (p : LocalProcessLauncher) (w : World) :
  procs w = l ++ [p] -> proc (length l) w = p.
Proof. intros E. unfold proc. rewrite E. apply nth_app_last. Qed.

Lemma set_proc_last (l : list LocalProcessLauncher) (p q : LocalProcessLauncher)
      (w : World) :
  procs w = l ++ [p] -> set_proc (length l) q w = set_procs (l ++ [q]) w.
Proof. intros E. unfold set_proc. now rewrite E, list_set_app_last. Qed.

(** Computes reads and writes of the last object of the store. *)
Ltac last_object E :=
  unfold proc_base, set_proc_base, proc, set_proc;
  repeat (cbn [procs set_procs base process poller killer state start_data
               stop_data stop_callbacks set_state set_start_data set_stop_data
               set_stop_callbacks State_eqb];
          rewrite ?E, ?nth_app_last, ?list_set_app_last).

Lemma on_stop_last l p f (w : World) :
  procs w = l ++ [p] -> state (base p) <> after ->
  proc_on_stop (length l) f w
  = Return DNone
      (set_procs (l ++ [mkLocalProcessLauncher
                          (set_stop_callbacks (stop_callbacks (base p) ++ [f]) (base p))
                          (process p) (poller p) (killer p)]) w).
Proof.
  intros E N.
  unfold proc_on_stop, on_stop, update_self, bind, gets, modify, ret.
  last_object E.
  destruct (state (base p)) eqn:Es; try congruence; last_object E; reflexivity.
Qed.

Lemma start_last l p pid (w : World) :
  procs w = l ++ [p] -> state (base p) = before ->
  start (length l) (Some pid) w
  = Return DNone
      (set_procs (l ++ [mkLocalProcessLauncher
                          (mkBaseLauncher running (DInt pid) (stop_data (base p))
                                          (stop_callbacks (base p)))
                          (Some pid) true (killer p)]) w).
Proof.
  intros E Hb.
  unfold start, update_proc, proc_notify_start, notify_start, update_self,
    bind, gets, modify, ret.
  last_object E. rewrite Hb. last_object E. reflexivity.
Qed.

Lemma start_last_fails l p (w : World) :
  procs w = l ++ [p] -> state (base p) = before ->
  start (length l) None w = Raised (OSError "Popen") w.
Proof.
  intros E Hb. unfold start, bind, gets.
  last_object E. now rewrite Hb.
Qed.

Lemma start_each_round popen (i : nat) (pid : Z) tl dlist (w : World) :
  popen i = Some pid ->
  start_each popen (i :: tl) dlist w
  = start_each popen tl (dlist ++ [DNone]) (after_engine_start i pid w).
Proof.
  intros Hp. cbn [start_each].
  unfold bind at 1.
  assert (Hs : (if Nat.ltb 0 i then sleep_delay else ret tt) w
               = Return tt (set_loop_time
                              (if Nat.ltb 0 i then (loop_time w + delay (eset w))%Q
                               else loop_time w) w)).
  { destruct (Nat.ltb 0 i); [reflexivity|]. destruct w; reflexivity. }
  rewrite Hs. clear Hs.
  set (w0 := set_loop_time _ w).
  unfold bind at 1, new_launcher, bind at 1, gets, bind at 1, modify, ret.
  set (w1 := set_procs _ w0).
  assert (E1 : procs w1 = procs w ++ [LocalProcessLauncher_init]) by reflexivity.
  change (length (procs w0)) with (length (procs w)).
  unfold bind at 1.
  rewrite (@on_stop_last _ _ _ _ E1) by discriminate.
  set (w2 := set_procs _ w1).
  match goal with
  | w2 := set_procs (_ ++ [?q]) _ |- _ =>
      assert (E2 : procs w2 = procs w ++ [q]) by reflexivity
  end.
  unfold bind at 1. rewrite Hp, (@start_last _ _ pid _ E2) by reflexivity.
  unfold bind at 1. reflexivity.
Qed.

Lemma start_each_round_fails popen (i : nat) tl dlist (w : World) :
  popen i = None ->
  start_each popen (i :: tl) dlist w
  = Raised (OSError "Popen")
      (mkWorld (procs w ++ [registered_engine]) (eset w)
               (if Nat.ltb 0 i then (loop_time w + delay (eset w))%Q else loop_time w)
               (timeouts w) (WINDOWS w) (signal_raises w) (os_events w) (observed w)).
Proof.
  intros Hp. cbn [start_each].
  unfold bind at 1.
  assert (Hs : (if Nat.ltb 0 i then sleep_delay else ret tt) w
               = Return tt (set_loop_time
                              (if Nat.ltb 0 i then (loop_time w + delay (eset w))%Q
                               else loop_time w) w)).
  { destruct (Nat.ltb 0 i); [reflexivity|]. destruct w; reflexivity. }
  rewrite Hs. clear Hs.
  set (w0 := set_loop_time _ w).
  unfold bind at 1, new_launcher, bind at 1, gets, bind at 1, modify, ret.
  set (w1 := set_procs _ w0).
  assert (E1 : procs w1 = procs w ++ [LocalProcessLauncher_init]) by reflexivity.
  change (length (procs w0)) with (length (procs w)).
  unfold bind at 1.
  rewrite (@on_stop_last _ _ _ _ E1) by discriminate.
  set (w2 := set_procs _ w1).
  match goal with
  | w2 := set_procs (_ ++ [?q]) _ |- _ =>
      assert (E2 : procs w2 = procs w ++ [q]) by reflexivity
  end.
  unfold bind at 1. rewrite Hp, (@start_last_fails _ _ _ E2) by reflexivity.
  reflexivity.
Qed.

Lemma dict_set_fresh {V} (k : nat) (v : V) (d : list (nat * V)) :
  dict_mem k d = false -> dict_set k v d = d ++ [(k, v)].
Proof.
  induction d as [|[k' v'] d IH]; simpl; [reflexivity|].
  intros H. apply orb_false_iff in H. destruct H as [H1 H2].
  rewrite H1. now rewrite IH.
Qed.

Lemma dict_mem_app {V} (k : nat) (d e : list (nat * V)) :
  dict_mem k (d ++ e) = dict_mem k d || dict_mem k e.
Proof.
  induction d as [|[k' v'] d IH]; simpl; [reflexivity|].
  now rewrite IH, orb_assoc.
Qed.

Lemma keys_below_fresh {V} (k : nat) (d : list (nat * V)) :
  (forall j, dict_mem j d = true -> j < k) -> dict_mem k d = false.
Proof.
  intros H. destruct (dict_mem k d) eqn:E; [|reflexivity].
  apply H in E. lia.
Qed.

Lemma inject_Z_succ_mult (m : nat) (t d : Q) :
  (t + d + inject_Z (Z.of_nat m) * d == t + inject_Z (Z.of_nat (S m)) * d)%Q.
Proof.
  rewrite Nat2Z.inj_succ. unfold Z.succ. rewrite inject_Z_plus. ring.
Qed.

Lemma start_each_all (pid : nat -> Z) (m : nat) :
  forall k dlist w,
    (forall j, dict_mem j (launchers (eset w)) = true -> j < k) ->
    exists w',
      start_each (fun i => Some (pid i)) (seq k m) dlist w
      = Return (dlist ++ repeat DNone m) w'
      /\ procs w' = procs w ++ map (fun i => started_engine (pid i)) (seq k m)
      /\ launchers (eset w')
         = launchers (eset w)
           ++ map (fun i => (i, length (procs w) + (i - k))) (seq k m)
      /\ es_base (eset w') = es_base (eset w)
      /\ delay (eset w') = delay (eset w)
      /\ (loop_time w'
          == loop_time w
             + inject_Z (Z.of_nat (if Nat.eqb k 0 then m - 1 else m)) * delay (eset w))%Q
      /\ timeouts w' = timeouts w
      /\ os_events w' = os_events w
      /\ observed w' = observed w.
Proof.
  induction m as [|m IH]; intros k dlist w Hk.
  - exists w. simpl. rewrite !app_nil_r.
    repeat split; try reflexivity.
    destruct (Nat.eqb k 0); simpl; ring.
  - cbn [seq]. rewrite (@start_each_round _ k (pid k)) by reflexivity.
    set (w1 := after_engine_start k (pid k) w).
    assert (Hl1 : launchers (eset w1) = launchers (eset w) ++ [(k, length (procs w))]).
    { unfold w1, after_engine_start. simpl.
      apply dict_set_fresh, keys_below_fresh, Hk. }
    destruct (IH (S k) (dlist ++ [DNone]) w1)
      as (w' & Hr & Hp & Hl & Hb & Hd & Ht & Hto & Hos & Hob).
    { intros j. rewrite Hl1, dict_mem_app. simpl. rewrite orb_false_r.
      intros H. apply orb_true_iff in H. destruct H as [H|H].
      - apply Hk in H. lia.
      - apply Nat.eqb_eq in H. lia. }
    exists w'. split.
    { rewrite Hr. f_equal. rewrite <- app_assoc. reflexivity. }
    split.
    { rewrite Hp. unfold w1, after_engine_start. simpl.
      now rewrite <- app_assoc. }
    split.
    { rewrite Hl, Hl1, <- app_assoc. simpl. f_equal.
      rewrite Nat.sub_diag, Nat.add_0_r. f_equal.
      apply map_ext_in. intros i Hi. apply in_seq in Hi.
      unfold w1, after_engine_start. simpl. rewrite length_app. simpl.
      f_equal. lia. }
    split; [rewrite Hb; reflexivity|].
    split; [rewrite Hd; reflexivity|].
    split.
    { rewrite Ht. unfold w1, after_engine_start. simpl.
      destruct k as [|k]; simpl Nat.ltb; cbv iota.
      - rewrite Nat.sub_0_r. reflexivity.
      - apply inject_Z_succ_mult. }
    repeat split; assumption.
Qed.

(** X1.  [LocalEngineSetLauncher.start(n)] on a set with an empty mapping,
    when every engine can be spawned: [n] new launcher objects are created
    and run as the pids they were given, each with the set's method as stop
    callback; engine [i] is filed under index [i]; the set is [running] with
    a list of [n] [None] as start payload, which is also what is returned;
    the clock has advanced by [n - 1] delays; nothing is signalled and no
    observer is called. *)
Theorem engine_set_start_launches_all (n : nat) (pid : nat -> Z) (w : World) :
  launchers (eset w) = [] ->
  exists w',
    eset_start n (fun i => Some (pid i)) w = Return (DList (repeat DNone n)) w'
    /\ procs w' = procs w ++ map (fun i => started_engine (pid i)) (seq 0 n)
    /\ launchers (eset w') = map (fun i => (i, length (procs w) + i)) (seq 0 n)
    /\ eset_base w'
       = mkBaseLauncher running (DList (repeat DNone n)) (stop_data (eset_base w))
                        (stop_callbacks (eset_base w))
    /\ (loop_time w'
        == loop_time w + inject_Z (Z.of_nat (n - 1)) * delay (eset w))%Q
    /\ timeouts w' = timeouts w
    /\ os_events w' = os_events w
    /\ observed w' = observed w.
Proof.
  intros He.
  destruct (@start_each_all pid n 0 [] w)
    as (w1 & Hr & Hp & Hl & Hb & Hd & Ht & Hto & Hos & Hob).
  { rewrite He. simpl. discriminate. }
  unfold eset_start, bind at 1. rewrite Hr. simpl app.
  unfold eset_notify_start, notify_start, update_self, bind, modify, ret.
  eexists. split; [reflexivity|].
  cbn [procs set_eset_base set_eset eset launchers eset_base es_base loop_time
       timeouts os_events observed set_start_data set_state start_data state
       stop_data stop_callbacks].
  unfold eset_base. rewrite Hb.
  split; [exact Hp|]. split.
  { rewrite Hl, He. simpl. apply map_ext. intros i. now rewrite Nat.sub_0_r. }
  split; [reflexivity|].
  split; [exact Ht|].
  repeat split; assumption.
Qed.

Lemma start_each_fails_at popen (pid : nat -> Z) (f : nat) (m : nat) :
  popen f = None ->
  forall k dlist w,
    k <= f < k + m ->
    (forall i, k <= i < f -> popen i = Some (pid i)) ->
    (forall j, dict_mem j (launchers (eset w)) = true -> j < k) ->
    exists w',
      start_each popen (seq k m) dlist w = Raised (OSError "Popen") w'
      /\ procs w'
         = procs w ++ map (fun i => started_engine (pid i)) (seq k (f - k))
           ++ [registered_engine]
      /\ launchers (eset w')
         = launchers (eset w)
           ++ map (fun i => (i, length (procs w) + (i - k))) (seq k (f - k))
      /\ es_base (eset w') = es_base (eset w)
      /\ timeouts w' = timeouts w
      /\ os_events w' = os_events w
      /\ observed w' = observed w.
Proof.
  intros Hf. induction m as [|m IH]; intros k dlist w Hk Hp Hkeys; [lia|].
  cbn [seq]. destruct (Nat.eq_dec k f) as [->|Hne].
  - rewrite start_each_round_fails by exact Hf.
    eexists. split; [reflexivity|]. rewrite Nat.sub_diag. simpl.
    rewrite app_nil_r. repeat split; reflexivity.
  - rewrite (@start_each_round _ k (pid k)) by (apply Hp; lia).
    set (w1 := after_engine_start k (pid k) w).
    assert (Hl1 : launchers (eset w1) = launchers (eset w) ++ [(k, length (procs w))]).
    { unfold w1, after_engine_start. simpl.
      apply dict_set_fresh, keys_below_fresh, Hkeys. }
    destruct (IH (S k) (dlist ++ [DNone]) w1)
      as (w' & Hr & Hpr & Hl & Hb & Hto & Hos & Hob).
    { lia. }
    { intros i Hi. apply Hp. lia. }
    { intros j. rewrite Hl1, dict_mem_app. simpl. rewrite orb_false_r.
      intros H. apply orb_true_iff in H. destruct H as [H|H].
      - apply Hkeys in H. lia.
      - apply Nat.eqb_eq in H. lia. }
    exists w'. split; [exact Hr|].
    replace (f - k) with (S (f - S k)) by lia. cbn [seq map].
    split.
    { rewrite Hpr. unfold w1, after_engine_start. simpl.
      now rewrite <- app_assoc. }
    split.
    { rewrite Hl, Hl1, <- app_assoc. simpl. f_equal.
      rewrite Nat.sub_diag, Nat.add_0_r. f_equal.
      apply map_ext_in. intros i Hi. apply in_seq in Hi.
      unfold w1, after_engine_start. simpl. rewrite length_app. simpl.
      f_equal. lia. }
    split; [rewrite Hb; reflexivity|].
    repeat split; assumption.
Qed.

(** X2.  [LocalEngineSetLauncher.start(n)] when the process of engine [f]
    cannot be spawned: the error of [Popen] reaches the caller; the engines
    before [f] stay in the mapping as running processes and no signal is sent
    to them; the launcher of engine [f] exists but is not filed; the set
    itself is as it was (it is not [running]) and no observer is called. *)
Theorem engine_set_start_fails_midway (n f : nat) popen (pid : nat -> Z) (w : World) :
  launchers (eset w) = [] ->
  f < n ->
  (forall i, i < f -> popen i = Some (pid i)) ->
  popen f = None ->
  exists w',
    eset_start n popen w = Raised (OSError "Popen") w'
    /\ procs w'
       = procs w ++ map (fun i => started_engine (pid i)) (seq 0 f)
         ++ [registered_engine]
    /\ launchers (eset w') = map (fun i => (i, length (procs w) + i)) (seq 0 f)
    /\ eset_base w' = eset_base w
    /\ timeouts w' = timeouts w
    /\ os_events w' = os_events w
    /\ observed w' = observed w.
Proof.
  intros He Hfn Hp Hf.
  destruct (@start_each_fails_at popen pid f n Hf 0 [] w)
    as (w' & Hr & Hpr & Hl & Hb & Hto & Hos & Hob).
  { lia. }
  { intros i Hi. apply Hp. lia. }
  { rewrite He. simpl. discriminate. }
  exists w'. unfold eset_start, bind. rewrite Hr. split; [reflexivity|].
  rewrite Nat.sub_0_r in Hpr, Hl.
  split; [exact Hpr|]. split.
  { rewrite Hl, He. simpl. apply map_ext. intros i. now rewrite Nat.sub_0_r. }
  split; [unfold eset_base; now rewrite Hb|].
  repeat split; assumption.
Qed.

(** ** Starting a launcher that was started *)

Lemma start_each_returns (pid : nat -> Z) (todo : list nat) :
  forall dlist w,
    exists w',
      start_each (fun i => Some (pid i)) todo dlist w
      = Return (dlist ++ repeat DNone (length todo)) w'
      /\ procs w' = procs w ++ map (fun i => started_engine (pid i)) todo
      /\ es_base (eset w') = es_base (eset w)
      /\ observed w' = observed w.
Proof.
  induction todo as [|i tl IH]; intros dlist w.
  - exists w. simpl. unfold ret. rewrite !app_nil_r. repeat split.
  - rewrite (@start_each_round (fun i => Some (pid i)) i (pid i) tl dlist w eq_refl).
    destruct (IH (dlist ++ [DNone]) (after_engine_start i (pid i) w))
      as (w' & Hr & Hp & Hb & Ho).
    exists w'. split.
    { rewrite Hr. rewrite <- app_assoc. reflexivity. }
    split.
    { rewrite Hp. unfold after_engine_start. simpl. now rewrite <- app_assoc. }
    split; [rewrite Hb; reflexivity|rewrite Ho; reflexivity].
Qed.

(** C4, as amended.  [LocalProcessLauncher.start], the method of a launcher
    of one process, is valid from [before] only: from [before], when the
    process could be spawned, it runs it and leaves the launcher in
    [running] with the pid as start payload; in any other state it raises
    [ProcessStateError], whose message says that the process was already
    started and in which state it is, and the world is as it was.
    [LocalEngineSetLauncher.start] overrides it without a test of the
    state: in every state of the set, when the engines can be spawned, it
    spawns [n] new engines beside the launchers that exist, returns, and
    leaves the set in [running]. *)
Theorem start_only_from_before (r : nat) (w : World) :
  (forall pid, state (proc_base r w) = before -> r < length (procs w) ->
     exists w',
       start r (Some pid) w = Return DNone w'
       /\ state (proc_base r w') = running
       /\ start_data (proc_base r w') = DInt pid
       /\ process (proc r w') = Some pid
       /\ poller (proc r w') = true)
  /\ (forall popen, state (proc_base r w) <> before ->
        start r popen w
        = Raised (ProcessStateError
                    ("The process was already started and has state: "
                     ++ repr_State (state (proc_base r w)))) w)
  /\ (state (proc_base r w) = before -> start r None w = Raised (OSError "Popen") w)
  /\ (forall n pid,
        exists w',
          eset_start n (fun i => Some (pid i)) w = Return (DList (repeat DNone n)) w'
          /\ state (eset_base w') = running
          /\ start_data (eset_base w') = DList (repeat DNone n)
          /\ procs w' = procs w ++ map (fun i => started_engine (pid i)) (seq 0 n)
          /\ observed w' = observed w).
Proof.
  destruct (process_start_only_from_before r w) as (H1 & H2 & H3).
  split; [exact H1|]. split; [exact H2|]. split; [exact H3|].
  intros n pid.
  destruct (start_each_returns pid (seq 0 n) [] w) as (w1 & Hr & Hp & Hb & Ho).
  rewrite length_seq in Hr. simpl app in Hr.
  unfold eset_start, bind at 1. rewrite Hr.
  unfold eset_notify_start, notify_start, update_self, bind, modify, ret.
  eexists. split; [reflexivity|].
  repeat split; assumption.
Qed.

(** C4 at a launcher just constructed, at the same launcher once started,
    and at an engine set that is asked for two engines. *)
Lemma start_only_from_before_witness :
  (exists w',
      start 0 (Some 100%Z) one_launcher_world = Return DNone w'
      /\ state (proc_base 0 w') = running
      /\ start_data (proc_base 0 w') = DInt 100
      /\ process (proc 0 w') = Some 100%Z
      /\ poller (proc 0 w') = true)
  /\ start 0 (Some 101%Z) (exec (start 0 (Some 100%Z)) one_launcher_world)
     = Raised (ProcessStateError
                 "The process was already started and has state: 'running'")
              (exec (start 0 (Some 100%Z)) one_launcher_world)
  /\ (exists w',
        eset_start 2 (fun i => Some (100 + Z.of_nat i)%Z) empty_world
        = Return (DList [DNone; DNone]) w'
        /\ state (eset_base w') = running).
Proof.
  split; [|split].
  - apply (proj1 (start_only_from_before 0 one_launcher_world) 100%Z).
    + reflexivity.
    + simpl. lia.
  - apply (proj1 (proj2 (start_only_from_before 0
                    (exec (start 0 (Some 100%Z)) one_launcher_world))) (Some 101%Z)).
    simpl. discriminate.
  - destruct (proj2 (proj2 (proj2 (start_only_from_before 0 empty_world)))
                    2 (fun i => (100 + Z.of_nat i)%Z))
      as (w' & Hr & Hs & _).
    exists w'. split; [exact Hr|exact Hs].
Defined.

(** C4 as stated fails: an engine set is a local-process launcher whose
    [start] has no test of the state.  On a set that is [running] with two
    engines, [start] returns instead of raising, the two engines it had are
    no longer in its mapping (their indices are taken by the new ones)
    though their processes run on; on a set in [after], [start] returns and
    the set is [running] again. *)
Lemma engine_set_start_has_no_state_check :
  let again := eset_start 2 (fun i => Some (200 + Z.of_nat i)%Z) in
  let stopped := exec (eset_notify_stop (DDict [])) two_engines_world in
  state (eset_base two_engines_world) = running
  /\ launchers (eset two_engines_world) = [(0, 0); (1, 1)]
  /\ returned (again two_engines_world) = true
  /\ state (eset_base (exec again two_engines_world)) = running
  /\ launchers (eset (exec again two_engines_world)) = [(0, 2); (1, 3)]
  /\ map (fun p => state (base p)) (procs (exec again two_engines_world))
     = [running; running; running; running]
  /\ state (eset_base stopped) = after
  /\ returned (again stopped) = true
  /\ state (eset_base (exec again stopped)) = running.
Proof. vm_compute. repeat split; reflexivity. Qed.

(** ** An engine of the set stops *)

Lemma find_engine_finds (pid : Z) (w : World) (i el : nat) post :
  process (proc el w) = Some pid ->
  forall pre idx,
    Forall (fun ie => other_pid w pid (snd ie)) pre ->
    find_engine pid (pre ++ (i, el) :: post) idx w = Return (Some i) w.
Proof.
  intros Hel. induction pre as [|[j e] pre IH]; intros idx Hpre.
  - simpl. unfold bind, gets. rewrite Hel, Z.eqb_refl. reflexivity.
  - inversion Hpre as [|? ? (pid' & Hp & Hne) Hrest]; subst.
    simpl in *. unfold bind at 1, gets. rewrite Hp.
    apply Z.eqb_neq in Hne. rewrite Hne. apply IH, Hrest.
Qed.

Lemma find_engine_misses (pid : Z) (w : World) (i el : nat) :
  forall pre idx,
    Forall (fun ie => other_pid w pid (snd ie)) (pre ++ [(i, el)]) ->
    find_engine pid (pre ++ [(i, el)]) idx w = Return (Some i) w.
Proof.
  induction pre as [|[j e] pre IH]; intros idx Hall;
    inversion Hall as [|? ? (pid' & Hp & Hne) Hrest]; subst;
    simpl in *; unfold bind at 1, gets; rewrite Hp;
    apply Z.eqb_neq in Hne; rewrite Hne.
  - reflexivity.
  - apply IH, Hrest.
Qed.

Lemma dict_mem_middle {V} (i : nat) (v : V) pre post :
  dict_mem i (pre ++ (i, v) :: post) = true.
Proof.
  rewrite dict_mem_app. simpl. rewrite Nat.eqb_refl. simpl. apply orb_true_r.
Qed.

Lemma dict_remove_middle {V} (i : nat) (v : V) pre post :
  dict_mem i pre = false -> dict_remove i (pre ++ (i, v) :: post) = pre ++ post.
Proof.
  induction pre as [|[k' v'] pre IH]; simpl; intros H.
  - now rewrite Nat.eqb_refl.
  - apply orb_false_iff in H. destruct H as [H1 H2]. rewrite H1. now rewrite IH.
Qed.

Lemma notice_engine_stopped_pops (data : Data) (pid : Z) (w : World)
      (i el : nat) pre post kv :
  data_pid data w = Return pid w ->
  launchers (eset w) = pre ++ (i, el) :: post ->
  find_engine pid (pre ++ (i, el) :: post) None w = Return (Some i) w ->
  dict_mem i pre = false ->
  stop_data (eset_base w) = DDict kv ->
  _notice_engine_stopped data w
  = Return DNone
      (set_eset
         (mkLocalEngineSetLauncher
            (set_stop_data (DDict (dict_set i data kv)) (es_base (eset w)))
            (pre ++ post) (delay (eset w))) w).
Proof.
  intros Hd Hl Hf Hi Hs.
  unfold _notice_engine_stopped. unfold bind at 1. rewrite Hd.
  unfold bind at 1, gets at 1. rewrite Hl. unfold bind at 1. rewrite Hf.
  assert (Hm : forall A (a b : A),
             match pre ++ (i, el) :: post with [] => a | _ :: _ => b end = b)
    by (intros; destruct pre; reflexivity).
  rewrite Hm.
  unfold launchers_pop, stop_data_setitem, update_self, bind, gets, modify, ret.
  rewrite Hl, dict_mem_middle, (@dict_remove_middle _ i el pre post Hi).
  unfold eset_base in *. simpl. rewrite Hs. reflexivity.
Qed.

(** X3.  [_notice_engine_stopped] with the stop data of an engine of the
    mapping (the first whose pid is the pid of the data): that engine, and
    no other, leaves the mapping, and the data is stored in [stop_data]
    under its index; the state and the callbacks of the set are left as
    they are. *)
Theorem notice_engine_stopped_removes_engine (code pid : Z) (w : World)
        (i el : nat) pre post kv :
  launchers (eset w) = pre ++ (i, el) :: post ->
  Forall (fun ie => other_pid w pid (snd ie)) pre ->
  process (proc el w) = Some pid ->
  dict_mem i pre = false ->
  stop_data (eset_base w) = DDict kv ->
  _notice_engine_stopped (DExit code pid) w
  = Return DNone
      (set_eset
         (mkLocalEngineSetLauncher
            (set_stop_data (DDict (dict_set i (DExit code pid) kv)) (es_base (eset w)))
            (pre ++ post) (delay (eset w))) w).
Proof.
  intros Hl Hpre Hel Hi Hs.
  apply (@notice_engine_stopped_pops _ pid w i el pre post kv);
    try assumption; try reflexivity.
  now apply find_engine_finds.
Qed.

(** X4.  [_notice_engine_stopped] with the stop data of a process that is
    no engine of the mapping: the loop runs to its end and leaves [idx] at
    the last engine, which is removed from the mapping and gets the data
    stored under its index, although its pid is another one. *)
Theorem notice_engine_stopped_unknown_pid_removes_last (code pid : Z) (w : World)
        (i el : nat) pre kv :
  launchers (eset w) = pre ++ [(i, el)] ->
  Forall (fun ie => other_pid w pid (snd ie)) (pre ++ [(i, el)]) ->
  dict_mem i pre = false ->
  stop_data (eset_base w) = DDict kv ->
  _notice_engine_stopped (DExit code pid) w
  = Return DNone
      (set_eset
         (mkLocalEngineSetLauncher
            (set_stop_data (DDict (dict_set i (DExit code pid) kv)) (es_base (eset w)))
            pre (delay (eset w))) w).
Proof.
  intros Hl Hall Hi Hs.
  rewrite (@notice_engine_stopped_pops (DExit code pid) pid w i el pre [] kv);
    try assumption; try reflexivity.
  - now rewrite app_nil_r.
  - now apply find_engine_misses.
Qed.

(** ** Signalling an engine set *)

Lemma signal_on_events (el : nat) (sig : Signal) (w : World) (evs : list OsEvent) :
  signal_goes_through w el ->
  signal el sig (set_os_events evs w)
  = Return DNone (set_os_events (evs ++ signal_event w sig el) w).
Proof.
  intros H. unfold signal, signal_event, os_emit, bind, gets, modify, ret.
  change (proc_base el (set_os_events evs w)) with (proc_base el w).
  change (proc el (set_os_events evs w)) with (proc el w).
  destruct (State_eqb (state (proc_base el w)) running) eqn:Es.
  - destruct H as [H|(pid & Hp & Hr)].
    + apply State_eqb_eq in Es. congruence.
    + change (process (proc el (set_os_events evs w))) with (process (proc el w)).
      rewrite Hp. cbn beta iota.
      change (signal_raises (set_os_events evs w) pid) with (signal_raises w pid).
      rewrite Hr. cbn beta iota.
      change (WINDOWS (set_os_events evs w)) with (WINDOWS w).
      destruct (WINDOWS w && negb (Signal_eqb sig SIGINT)); reflexivity.
  - now rewrite app_nil_r.
Qed.

Lemma signal_raises_on_events (el : nat) (sig : Signal) (w : World)
      (evs : list OsEvent) (pid : Z) :
  state (proc_base el w) = running -> process (proc el w) = Some pid ->
  signal_raises w pid = true ->
  signal el sig (set_os_events evs w) = Raised (OSError "signal") (set_os_events evs w).
Proof.
  intros Hs Hp Hr. unfold signal, bind, gets.
  change (proc_base el (set_os_events evs w)) with (proc_base el w).
  rewrite Hs. cbn [State_eqb]. cbn beta iota.
  change (process (proc el (set_os_events evs w))) with (process (proc el w)).
  rewrite Hp. cbn beta iota.
  change (signal_raises (set_os_events evs w) pid) with (signal_raises w pid).
  rewrite Hr. reflexivity.
Qed.

Lemma for_launchers_signal (sig : Signal) (w : World) (ls : list (nat * nat)) :
  Forall (fun ie => signal_goes_through w (snd ie)) ls ->
  forall evs,
    for_launchers (fun el => signal el sig) ls (set_os_events evs w)
    = Return (repeat DNone (length ls))
             (set_os_events (evs ++ flat_map (signal_event w sig) (map snd ls)) w).
Proof.
  induction 1 as [|[i el] ls Hel Hls IH]; intros evs; simpl.
  - now rewrite app_nil_r.
  - cbn [snd] in Hel. unfold bind at 1. rewrite (signal_on_events sig evs Hel).
    unfold bind at 1. rewrite IH. unfold ret. now rewrite <- app_assoc.
Qed.

Lemma set_os_events_same (w : World) : set_os_events (os_events w) w = w.
Proof. destruct w; reflexivity. Qed.

(** X5.  [LocalEngineSetLauncher.signal] when signalling goes through for
    every engine of the mapping: the engines are signalled in the order of
    the mapping, each running one once and the others not at all, the
    result is one [None] per engine, and nothing else changes. *)
Theorem engine_set_signal_reaches_every_engine (sig : Signal) (w : World) :
  Forall (fun ie => signal_goes_through w (snd ie)) (launchers (eset w)) ->
  eset_signal sig w
  = Return (DList (repeat DNone (length (launchers (eset w)))))
           (set_os_events
              (os_events w
               ++ flat_map (signal_event w sig) (map snd (launchers (eset w)))) w).
Proof.
  intros H. pose proof (for_launchers_signal sig H (os_events w)) as E.
  rewrite set_os_events_same in E.
  unfold eset_signal, bind, gets. rewrite E. reflexivity.
Qed.

(** X6.  [LocalEngineSetLauncher.signal] has no handler around the signal of
    one engine: when signalling a running engine raises, the error reaches
    the caller, the engines before it in the mapping have been signalled and
    the engines after it have not. *)
Theorem engine_set_signal_stops_at_first_failure (sig : Signal) (w : World)
        (i el : nat) (pid : Z) pre post :
  launchers (eset w) = pre ++ (i, el) :: post ->
  Forall (fun ie => signal_goes_through w (snd ie)) pre ->
  state (proc_base el w) = running ->
  process (proc el w) = Some pid ->
  signal_raises w pid = true ->
  eset_signal sig w
  = Raised (OSError "signal")
           (set_os_events
              (os_events w ++ flat_map (signal_event w sig) (map snd pre)) w).
Proof.
  intros Hl Hpre Hs Hp Hr.
  assert (E : forall evs,
             for_launchers (fun e => signal e sig) (pre ++ (i, el) :: post)
                           (set_os_events evs w)
             = Raised (OSError "signal")
                      (set_os_events
                         (evs ++ flat_map (signal_event w sig) (map snd pre)) w)).
  { clear Hl. induction Hpre as [|[j e] pre He Hpre IH]; intros evs; simpl.
    - unfold bind. rewrite (@signal_raises_on_events el sig w evs pid Hs Hp Hr).
      now rewrite app_nil_r.
    - cbn [snd] in He. unfold bind at 1.
      rewrite (signal_on_events sig evs He).
      unfold bind at 1. rewrite IH. now rewrite <- app_assoc. }
  specialize (E (os_events w)). rewrite set_os_events_same in E.
  unfold eset_signal, bind, gets. rewrite Hl, E. reflexivity.
Qed.

(** ** The properties of the engine set on two engines *)

Lemma engine_set_start_launches_all_witness :
  exists w',
    eset_start 2 (fun i => Some (100 + Z.of_nat i)%Z) empty_world
    = Return (DList [DNone; DNone]) w'
    /\ procs w' = [started_engine 100; started_engine 101]
    /\ launchers (eset w') = [(0, 0); (1, 1)].
Proof.
  destruct (@engine_set_start_launches_all
              2 (fun i => (100 + Z.of_nat i)%Z) empty_world eq_refl)
    as (w' & Hr & Hp & Hl & _).
  exists w'. repeat split; assumption.
Defined.

Lemma engine_set_start_fails_midway_witness :
  exists w',
    eset_start 3 popen_fails_at_1 empty_world = Raised (OSError "Popen") w'
    /\ procs w' = [started_engine 100; registered_engine]
    /\ launchers (eset w') = [(0, 0)]
    /\ eset_base w' = eset_base empty_world.
Proof.
  destruct (@engine_set_start_fails_midway
              3 1 popen_fails_at_1 (fun i => (100 + Z.of_nat i)%Z) empty_world
              eq_refl)
    as (w' & Hr & Hp & Hl & Hb & _).
  - lia.
  - intros i Hi. destruct i; [reflexivity|lia].
  - reflexivity.
  - exists w'. repeat split; assumption.
Defined.

Lemma notice_engine_stopped_removes_engine_witness :
  launchers (eset (exec (_notice_engine_stopped (DExit 0 101)) two_engines_world))
  = [(0, 0)]
  /\ stop_data (eset_base (exec (_notice_engine_stopped (DExit 0 101))
                                two_engines_world))
     = DDict [(1, DExit 0 101)].
Proof.
  unfold exec.
  rewrite (@notice_engine_stopped_removes_engine
             0 101 two_engines_world 1 1 [(0, 0)] [] []).
  - split; reflexivity.
  - reflexivity.
  - constructor; [|constructor].
    exists 100%Z. split; [reflexivity|discriminate].
  - reflexivity.
  - reflexivity.
  - reflexivity.
Defined.

Lemma notice_engine_stopped_unknown_pid_removes_last_witness :
  launchers (eset (exec (_notice_engine_stopped (DExit 0 999)) two_engines_world))
  = [(0, 0)]
  /\ stop_data (eset_base (exec (_notice_engine_stopped (DExit 0 999))
                                two_engines_world))
     = DDict [(1, DExit 0 999)].
Proof.
  unfold exec.
  rewrite (@notice_engine_stopped_unknown_pid_removes_last
             0 999 two_engines_world 1 1 [(0, 0)] []).
  - split; reflexivity.
  - reflexivity.
  - constructor; [|constructor; [|constructor]].
    + exists 100%Z. split; [reflexivity|discriminate].
    + exists 101%Z. split; [reflexivity|discriminate].
  - reflexivity.
  - reflexivity.
Defined.

Lemma engine_set_signal_reaches_every_engine_witness :
  os_events (exec (eset_signal SIGTERM) two_engines_world)
  = [SendSignal 100 SIGTERM; SendSignal 101 SIGTERM].
Proof.
  unfold exec.
  rewrite (@engine_set_signal_reaches_every_engine SIGTERM two_engines_world).
  - reflexivity.
  - constructor; [|constructor; [|constructor]].
    + right. exists 100%Z. split; reflexivity.
    + right. exists 101%Z. split; reflexivity.
Defined.

Lemma engine_set_signal_stops_at_first_failure_witness :
  eset_signal SIGTERM unreachable_engine_world
  = Raised (OSError "signal")
           (set_os_events [SendSignal 100 SIGTERM] unreachable_engine_world).
Proof.
  rewrite (@engine_set_signal_stops_at_first_failure
             SIGTERM unreachable_engine_world 1 1 101 [(0, 0)] []).
  - reflexivity.
  - reflexivity.
  - constructor; [|constructor].
    right. exists 100%Z. split; reflexivity.
  - reflexivity.
  - reflexivity.
  - reflexivity.
Defined.

(** ** An engine of the set exits *)

Lemma list_set_list_set {A} (n : nat) (x y : A) (l : list A) :
  list_set n x (list_set n y l) = list_set n x l.
Proof.
  revert n; induction l as [|z l IH]; intros [|n]; simpl; try reflexivity.
  now rewrite IH.
Qed.

Lemma set_proc_set_proc (r : nat) (p q : LocalProcessLauncher) (w : World) :
  set_proc r p (set_proc r q w) = set_proc r p w.
Proof. unfold set_proc, set_procs. simpl. now rewrite list_set_list_set. Qed.

Lemma process_set_proc (r e : nat) (p : LocalProcessLauncher) (w : World) :
  process p = process (proc r w) ->
  process (proc e (set_proc r p w)) = process (proc e w).
Proof.
  intros H. destruct (Nat.eq_dec e r) as [->|Hne].
  - rewrite proc_set_proc. destruct (r <? length (procs w))%nat; auto.
  - unfold proc, set_proc. simpl. now rewrite nth_list_set_other by auto.
Qed.

(** Reads and writes of one object of the store, written one after the
    other. *)
Ltac same_object :=
  unfold proc_base, set_proc_base;
  repeat (rewrite ?set_proc_set_proc;
          rewrite ?proc_set_proc_in by (rewrite ?length_procs_set_proc; assumption);
          cbn [base process poller killer state start_data stop_data
               stop_callbacks set_state set_start_data set_stop_data
               set_stop_callbacks]).

Lemma other_pid_set_proc (r e : nat) (pid : Z) (p : LocalProcessLauncher) (w : World) :
  process p = process (proc r w) ->
  other_pid w pid e -> other_pid (set_proc r p w) pid e.
Proof.
  intros H (pid' & Hp & Hne). exists pid'. split; [|exact Hne].
  now rewrite process_set_proc.
Qed.

(** X7.  [poll] on an engine of a set (a running process launcher whose
    only stop callback is the set's [_notice_engine_stopped]) when the
    process has exited with status [st]: the poller is stopped, the engine
    goes to [after] with the exit code and the pid as stop payload, its
    callback is consumed, and through the callback the engine leaves the
    mapping of the set and its payload is stored under its index.  The
    set's own state and callbacks are not touched and no observer is
    called, whether or not other engines remain. *)
Theorem poll_engine_of_set (st pid : Z) (w : World) (i el : nat) pre post kv :
  el < length (procs w) ->
  process (proc el w) = Some pid ->
  stop_callbacks (proc_base el w) = [bound_notice_engine_stopped] ->
  launchers (eset w) = pre ++ (i, el) :: post ->
  Forall (fun ie => other_pid w pid (snd ie)) pre ->
  dict_mem i pre = false ->
  stop_data (eset_base w) = DDict kv ->
  poll el (Some st) w
  = Return (Some st)
      (set_eset
         (mkLocalEngineSetLauncher
            (set_stop_data (DDict (dict_set i (DExit st pid) kv)) (es_base (eset w)))
            (pre ++ post) (delay (eset w)))
         (set_proc el
            (mkLocalProcessLauncher
               (mkBaseLauncher after (start_data (proc_base el w)) (DExit st pid) [])
               (Some pid) false (killer (proc el w)))
            w)).
Proof.
  intros Hin Hp Hc Hl Hpre Hi Hs.
  unfold poll. unfold bind at 1, gets at 1. rewrite Hp.
  unfold update_proc, proc_notify_stop, notify_stop, update_self.
  unfold bind at 1, modify at 1.
  unfold bind at 1. unfold bind at 1, modify at 1.
  unfold bind at 1, modify at 1.
  unfold bind at 1, gets at 1.
  same_object. unfold proc_base in Hc. rewrite Hc.
  cbn [length drain_callbacks]. unfold pop_callback.
  unfold bind at 1. unfold bind at 1. unfold bind at 1, gets at 1.
  same_object. rewrite Hc. cbn [list_pop].
  unfold update_self, bind at 1, modify at 1, ret at 1.
  same_object. rewrite Hp. cbn [call_callback].
  match goal with
  | |- context [set_proc el ?p w] => set (w1 := set_proc el p w)
  end.
  assert (Hp1 : process (proc el w1) = Some pid).
  { unfold w1. rewrite process_set_proc; [exact Hp|now rewrite Hp]. }
  assert (Hpre1 : Forall (fun ie => other_pid w1 pid (snd ie)) pre).
  { eapply Forall_impl; [|exact Hpre]. intros ie H.
    apply other_pid_set_proc; [now rewrite Hp|exact H]. }
  unfold bind at 1.
  rewrite (@notice_engine_stopped_pops (DExit st pid) pid w1 i el pre post kv
             eq_refl Hl (@find_engine_finds pid w1 i el post Hp1 pre None Hpre1)
             Hi Hs).
  reflexivity.
Qed.

Lemma same_engines_refl w : same_engines w w.
Proof. split; reflexivity. Qed.

Lemma same_engines_trans a b c :
  same_engines a b -> same_engines b c -> same_engines a c.
Proof. unfold same_engines. intros [] []. split; congruence. Qed.

#[local] Hint Resolve same_engines_refl same_engines_trans : core.

Lemma eset_drain_same_engines n data :
  preserves same_engines
    (drain_callbacks eset_base set_eset_base call_observer n data).
Proof.
  induction n as [|n IH]; simpl; [apply preserves_ret; auto|].
  unfold pop_callback, update_self, call_observer.
  preserve_steps; auto; intros w; split; reflexivity.
Qed.

Lemma eset_notify_stop_same_engines data :
  preserves same_engines (eset_notify_stop data).
Proof.
  unfold eset_notify_stop, notify_stop, update_self.
  preserve_steps; auto using eset_drain_same_engines; intros w; split; reflexivity.
Qed.

(** X8.  [_notice_engine_stopped] when the mapping is already empty (the
    only case in which the set itself is notified): the set goes to
    [after], its observers are called, the last registered first, with the
    stop data collected so far, and the payload that came with the
    notification is stored nowhere. *)
Theorem notice_engine_stopped_on_empty_mapping (code pid : Z) (w : World) :
  launchers (eset w) = [] ->
  exists w',
    _notice_engine_stopped (DExit code pid) w = Return DNone w'
    /\ eset_base w'
       = mkBaseLauncher after (start_data (eset_base w)) (stop_data (eset_base w)) []
    /\ launchers (eset w') = []
    /\ local_log w'
       = local_log w
         ++ map (fun c => (c, stop_data (eset_base w)))
                (rev (stop_callbacks (eset_base w)))
    /\ procs w' = procs w.
Proof.
  intros Hl.
  unfold _notice_engine_stopped, data_pid, bind at 1, ret at 1.
  unfold bind at 1, gets at 1. rewrite Hl.
  cbn [find_engine]. unfold bind at 1, ret at 1.
  unfold bind at 1, gets at 1. unfold bind at 1.
  destruct (notify_stop_spec eset_observer_laws (stop_data (eset_base w)) w)
    as (w' & Hn & Hs & Hlog).
  destruct (eset_notify_stop_same_engines (stop_data (eset_base w)) w) as [Hp He].
  unfold eset_notify_stop in *. rewrite Hn in *. simpl in Hp, He.
  exists w'. split; [reflexivity|]. split; [exact Hs|].
  split; [congruence|]. split; [exact Hlog|exact Hp].
Qed.

Lemma poll_engine_of_set_witness :
  exists w',
    poll 1 (Some 0%Z) two_engines_world = Return (Some 0%Z) w'
    /\ state (proc_base 1 w') = after
    /\ launchers (eset w') = [(0, 0)]
    /\ stop_data (eset_base w') = DDict [(1, DExit 0 101)]
    /\ state (eset_base w') = running.
Proof.
  eexists. split.
  - apply (@poll_engine_of_set 0 101 two_engines_world 1 1 [(0, 0)] [] []).
    + simpl. lia.
    + reflexivity.
    + reflexivity.
    + reflexivity.
    + constructor; [|constructor].
      exists 100%Z. split; [reflexivity|discriminate].
    + reflexivity.
    + reflexivity.
  - repeat split; reflexivity.
Defined.

Lemma notice_engine_stopped_on_empty_mapping_witness :
  exists w',
    _notice_engine_stopped (DExit 0 100)
                           (exec (eset_on_stop "engines_stopped") empty_world)
    = Return DNone w'
    /\ state (eset_base w') = after
    /\ local_log w' = [("engines_stopped", DDict [])].
Proof.
  destruct (@notice_engine_stopped_on_empty_mapping
              0 100 (exec (eset_on_stop "engines_stopped") empty_world) eq_refl)
    as (w' & Hr & Hb & _ & Hlog & _).
  exists w'. split; [exact Hr|]. split.
  - now rewrite Hb.
  - exact Hlog.
Defined.

(** * Further properties of the batch launchers *)

Lemma commands_untouched_refl w : commands_untouched w w.
Proof. repeat split. Qed.

Lemma commands_untouched_trans a b c :
  commands_untouched a b -> commands_untouched b c -> commands_untouched a c.
Proof.
  unfold commands_untouched.
  intros (? & ? & ? & ? & ?) (? & ? & ? & ? & ?). repeat split; congruence.
Qed.

#[local] Hint Resolve commands_untouched_refl commands_untouched_trans : core.

Lemma set_batch_template_commands_untouched t :
  preserves commands_untouched (Batch.update_launcher (Batch.set_batch_template t)).
Proof. intros w. repeat split. Qed.

Lemma write_batch_script_commands_untouched n fc :
  preserves commands_untouched (Batch.write_batch_script n fc).
Proof.
  unfold Batch.write_batch_script, Batch._insert_options_in_script,
    Batch._insert_job_array_in_script, Batch.insert_option,
    Batch.insert_after_first_line, Batch.assign_n.
  preserve_steps_with ltac:(apply set_batch_template_commands_untouched);
    try (intros w; repeat split; fail).
  intros w. unfold Batch.update_launcher, modify. simpl.
  destruct (Nat.eqb _ _); repeat split.
Qed.

Lemma batch_drain_commands_untouched k data :
  preserves commands_untouched
    (drain_callbacks Batch.self_base Batch.set_self_base Batch.call_observer k data).
Proof.
  induction k as [|k IH]; simpl; [apply preserves_ret; auto|].
  unfold pop_callback, update_self, Batch.call_observer.
  preserve_steps; auto; intros w; repeat split.
Qed.

Lemma batch_notify_stop_commands_untouched data :
  preserves commands_untouched (Batch.notify_stop data).
Proof.
  unfold Batch.notify_stop, notify_stop, update_self.
  preserve_steps; auto using batch_drain_commands_untouched;
    intros w; repeat split.
Qed.

Lemma group_any_world {W V} (m : Match) (g : nat) (j : string) (w : W) (v : V) :
  group m g w = Return j w -> group m g v = Return j v.
Proof.
  unfold group. destruct g; [|destruct (dict_get _ _)];
    unfold ret, raise; intros H; inversion H; reflexivity.
Qed.

(** X9.  A batch launcher through [start] and [stop], from any state (there
    is no state check in [start]): when the script can be written and the
    output of the submit command holds a job id, [start] runs the submit
    command on the batch file, records and returns the job id and leaves
    the launcher [running] with it as start payload, calling no observer;
    a [stop] whose delete command runs then passes that job id to the
    delete command, returns what the command printed (stdout, then stderr),
    and leaves the launcher in [after] with the job id and that output as
    stop payload, its observers called with it, the last registered
    first. *)
Theorem batch_start_then_stop (n : nat) (fc : option string) (out j o e : string)
        (m : Match) (w : Batch.World) :
  returned (Batch.write_batch_script n fc w) = true ->
  search (Batch.job_id_regexp (Batch.launcher w)) out = Some m ->
  group m (Batch.job_id_regexp_group (Batch.launcher w)) w = Return j w ->
  exists w1 w2,
    Batch.start n fc (Some out) w = Return (DStr j) w1
    /\ Batch.base (Batch.launcher w1)
       = mkBaseLauncher running (DStr j)
                        (stop_data (Batch.base (Batch.launcher w)))
                        (stop_callbacks (Batch.base (Batch.launcher w)))
    /\ Batch.job_id (Batch.launcher w1) = Some j
    /\ Batch.commands w1
       = Batch.commands w
         ++ [Batch.submit_command (Batch.launcher w)
             ++ [Batch.batch_file (Batch.launcher w)]]
    /\ Batch.observed w1 = Batch.observed w
    /\ Batch.stop (Some (o, e)) w1 = Return (o ++ e)%string w2
    /\ Batch.base (Batch.launcher w2)
       = mkBaseLauncher after (DStr j) (DJob j (o ++ e)) []
    /\ Batch.commands w2
       = Batch.commands w1 ++ [Batch.delete_command (Batch.launcher w) ++ [j]]
    /\ Batch.observed w2
       = Batch.observed w
         ++ map (fun c => (c, DJob j (o ++ e)))
                (rev (stop_callbacks (Batch.base (Batch.launcher w)))).
Proof.
  intros Hw Hs Hg.
  pose proof (write_batch_script_untouched n fc w) as Hu.
  pose proof (write_batch_script_commands_untouched n fc w) as Hc.
  destruct (Batch.write_batch_script n fc w) as [[] v|ex v] eqn:Ew;
    [|discriminate Hw].
  simpl in Hu, Hc.
  destruct Hu as (Hb & Hobs & Hj & Hre).
  destruct Hc as (Hcm & Hsub & Hdel & Hbf & Hgrp).
  set (v1 := Batch.mkWorld (Batch.launcher v) (Batch.files v)
               (Batch.commands v
                ++ [Batch.submit_command (Batch.launcher v)
                    ++ [Batch.batch_file (Batch.launcher v)]])
               (Batch.observed v)).
  set (w1 := Batch.set_self_base
               (mkBaseLauncher running (DStr j)
                  (stop_data (Batch.base (Batch.launcher v)))
                  (stop_callbacks (Batch.base (Batch.launcher v))))
               (Batch.set_launcher (Batch.set_job_id (Some j) (Batch.launcher v1)) v1)).
  assert (E1 : Batch.start n fc (Some out) w = Return (DStr j) w1).
  { unfold Batch.start. unfold bind at 1. rewrite Ew.
    unfold bind at 1, gets at 1. unfold bind at 1, Batch.run_command, modify at 1.
    fold v1. unfold decode, bind at 1, ret at 1.
    unfold Batch.parse_job_id. unfold bind at 1, bind at 1, gets at 1.
    unfold bind at 1, gets at 1.
    change (Batch.launcher v1) with (Batch.launcher v).
    rewrite Hre, Hgrp, Hs.
    unfold bind at 1. rewrite (@group_any_world _ _ m _ j w v1 Hg).
    reflexivity. }
  destruct (@stop_notifies_when_delete_runs j o e w1 eq_refl)
    as (w2 & E2 & Hb2 & Hl2).
  pose proof (batch_notify_stop_commands_untouched (DJob j (o ++ e))) as Hn.
  exists w1, w2. split; [exact E1|].
  split; [unfold w1; simpl; now rewrite Hb|].
  split; [reflexivity|].
  split; [unfold w1, v1; simpl; now rewrite Hcm, Hsub, Hbf|].
  split; [unfold w1, v1; simpl; exact Hobs|].
  split; [exact E2|].
  split; [rewrite Hb2; reflexivity|].
  split.
  - revert E2.
    unfold Batch.stop, Batch.get_job_id, Batch.run_command, try_except, decode,
      bind, gets, modify, ret, raise.
    change (Batch.job_id (Batch.launcher w1)) with (Some j). cbn iota beta.
    cbn [Batch.launcher]. change (Batch.job_id (Batch.launcher w1)) with (Some j).
    cbn iota beta.
    match goal with
    | |- context [Batch.notify_stop ?d ?x] =>
        specialize (Hn x); destruct (Batch.notify_stop d x) as [d' x'|ex x'] eqn:En
    end; [|discriminate].
    intros H. inversion H. subst x'. simpl in Hn.
    destruct Hn as (Hn & _). rewrite Hn. simpl. now rewrite Hdel.
  - rewrite Hl2. unfold w1, v1. simpl. now rewrite Hobs, Hb.
Qed.

Lemma batch_start_then_stop_witness :
  exists w1 w2,
    Batch.start 2 None (Some qsub_output) observed_batch_world
    = Return (DStr "12345") w1
    /\ Batch.commands w1 = [["qsub"; "./pbs_engines"]]
    /\ Batch.stop (Some ("deleted", EmptyString)) w1 = Return "deleted" w2
    /\ Batch.commands w2 = [["qsub"; "./pbs_engines"]; ["qdel"; "12345"]]
    /\ batch_log w2 = [("engines_stopped", DJob "12345" "deleted")].
Proof.
  destruct (@batch_start_then_stop
              2 None qsub_output "12345" "deleted" EmptyString
              (mkMatch "12345" []) observed_batch_world)
    as (w1 & w2 & E1 & _ & _ & Hc1 & _ & E2 & _ & Hc2 & Hl).
  - reflexivity.
  - reflexivity.
  - reflexivity.
  - exists w1, w2. split; [exact E1|]. split; [exact Hc1|].
    split; [exact E2|]. split; [|exact Hl].
    rewrite Hc2, Hc1. reflexivity.
Defined.
